(** * bxss: line readers, custom-request parser, browser locator and browser pool

    A shallow embedding of [pkg/payloads] and [pkg/browser] of bxss v2.
    Go strings are byte strings ([string] of 8-bit [ascii]); errors are a
    small inductive type rendered by [Error]; the operating system, the
    chromedp engine and the Go runtime's [select] are an environment of
    oracles ([Env]); console output and engine calls are an event trace
    carried by [World]. *)

From Stdlib Require Import Bool Arith List Lia ZArith.
From Stdlib Require Import Strings.Ascii Strings.String Numbers.DecimalString.
Import ListNotations.
Open Scope list_scope.
Open Scope string_scope.

(* ------------------------------------------------------------------ *)
(** ** Errors *)

(** [errors.New(msg)] and [fmt.Errorf] without a verb are leaves;
    [fmt.Errorf(prefix + "%w", cause)] wraps its cause. *)
Inductive error : Type :=
| errors_New (msg : string)
| Errorf_w (prefix : string) (cause : error).

Fixpoint Error (e : error) : string :=
  match e with
  | errors_New msg => msg
  | Errorf_w prefix cause => prefix ++ Error cause
  end.

(** A Go [(T, error)] result. *)
Inductive result (A : Type) : Type :=
| Ok (a : A)
| Err (e : error).
Arguments Ok {A} a.
Arguments Err {A} e.

Definition is_ok {A} (r : result A) : bool :=
  match r with Ok _ => true | Err _ => false end.

(** [%d] of a non-negative [int]. *)
Definition itoa (n : nat) : string := NilEmpty.string_of_uint (Nat.to_uint n).

(* ------------------------------------------------------------------ *)
(** ** The [strings] and [bufio] functions the code calls *)

Definition byte (c : ascii) : nat := nat_of_ascii c.

(** [strings.asciiSpace]: tab, LF, VT, FF, CR and space. *)
Definition asciiSpace (c : ascii) : bool :=
  (((9 <=? byte c) && (byte c <=? 13)) || (byte c =? 32))%nat.

(** Width in bytes of the white-space rune encoded at the head of [s], or
    [0] when [s] does not start with one.  The runes are those of
    [unicode.IsSpace]: the six ASCII ones, U+0085, U+00A0, U+1680,
    U+2000..U+200A, U+2028, U+2029, U+202F, U+205F and U+3000, in UTF-8. *)
Definition space_width (s : string) : nat :=
  (match s with
  | EmptyString => 0
  | String c0 s1 =>
    if asciiSpace c0 then 1
    else match s1 with
    | EmptyString => 0
    | String c1 s2 =>
      if (byte c0 =? 194) && ((byte c1 =? 133) || (byte c1 =? 160)) then 2
      else match s2 with
      | EmptyString => 0
      | String c2 _ =>
        if (byte c0 =? 225) && (byte c1 =? 154) && (byte c2 =? 128) then 3
        else if (byte c0 =? 226) && (byte c1 =? 128)
                && (((128 <=? byte c2) && (byte c2 <=? 138))
                    || (byte c2 =? 168) || (byte c2 =? 169) || (byte c2 =? 175))
        then 3
        else if (byte c0 =? 226) && (byte c1 =? 129) && (byte c2 =? 159) then 3
        else if (byte c0 =? 227) && (byte c1 =? 128) && (byte c2 =? 128) then 3
        else 0
      end
    end
  end)%nat.

(** The same test on a reversed string: width of the white-space rune
    whose encoding ends the original string. *)
Definition space_width_rev (r : string) : nat :=
  (match r with
  | EmptyString => 0
  | String c0 r1 =>
    if asciiSpace c0 then 1
    else match r1 with
    | EmptyString => 0
    | String c1 r2 =>
      if space_width (String c1 (String c0 EmptyString)) =? 2 then 2
      else match r2 with
      | EmptyString => 0
      | String c2 _ =>
        if space_width (String c2 (String c1 (String c0 EmptyString))) =? 3
        then 3 else 0
      end
    end
  end)%nat.

Fixpoint srev (s : string) : string :=
  match s with
  | EmptyString => EmptyString
  | String c s' => srev s' ++ String c EmptyString
  end.

(** Remove leading runes recognised by [width]; [skip] counts the bytes of
    the current rune still to drop. *)
Fixpoint strip (width : string -> nat) (s : string) (skip : nat) : string :=
  match s with
  | EmptyString => EmptyString
  | String _ s' =>
    match skip with
    | S k => strip width s' k
    | O => match width s with
           | O => s
           | S k => strip width s' k
           end
    end
  end.

Definition TrimLeftSpace (s : string) : string := strip space_width s 0.
Definition TrimRightSpace (s : string) : string :=
  srev (strip space_width_rev (srev s) 0).

(** [strings.TrimSpace]. *)
Definition TrimSpace (s : string) : string := TrimRightSpace (TrimLeftSpace s).

(** [strings.Fields]: the maximal runs of non-white-space bytes. [cur] is
    the field being read. *)
Definition flush (cur : string) : list string :=
  match cur with EmptyString => [] | _ => [cur] end.

Fixpoint fields_go (s : string) (skip : nat) (cur : string) : list string :=
  match s with
  | EmptyString => flush cur
  | String c s' =>
    match skip with
    | S k => fields_go s' k cur
    | O => match space_width s with
           | O => fields_go s' 0 (cur ++ String c EmptyString)
           | S k => (flush cur ++ fields_go s' k EmptyString)%list
           end
    end
  end.

Definition Fields (s : string) : list string := fields_go s 0 EmptyString.

(** [strings.HasPrefix] and [strings.Contains]. *)
Definition HasPrefix (s pre : string) : bool := String.prefix pre s.

Fixpoint Contains (s sub : string) : bool :=
  String.prefix sub s ||
  match s with
  | EmptyString => false
  | String _ s' => Contains s' sub
  end.

(** [strings.SplitN(s, sep, 2)] for a one-byte separator: cut at its first
    occurrence, or the whole string when it does not occur. *)
Fixpoint SplitN2 (s : string) (sep : ascii) : list string :=
  match s with
  | EmptyString => [EmptyString]
  | String c s' =>
    if Ascii.eqb c sep then [EmptyString; s']
    else match SplitN2 s' sep with
         | [a; b] => [String c a; b]
         | _ => [s]
         end
  end.

Definition isASCII (c : ascii) : bool := (byte c <? 128)%nat.

Fixpoint all_bytes (f : ascii -> bool) (s : string) : bool :=
  match s with
  | EmptyString => true
  | String c s' => f c && all_bytes f s'
  end.

Definition upper_byte (c : ascii) : ascii :=
  if ((97 <=? byte c) && (byte c <=? 122))%nat then ascii_of_nat (byte c - 32) else c.

Fixpoint map_bytes (f : ascii -> ascii) (s : string) : string :=
  match s with
  | EmptyString => EmptyString
  | String c s' => String (f c) (map_bytes f s')
  end.

(** [strings.ToUpper]: byte-wise on ASCII-only strings; otherwise Go maps
    [unicode.ToUpper] over the runes, a table of the [unicode] package that
    is taken as the parameter [unicode_upper]. *)
Definition ToUpper (unicode_upper : string -> string) (s : string) : string :=
  if all_bytes isASCII s then map_bytes upper_byte s else unicode_upper s.

(** [bufio.MaxScanTokenSize]. *)
Definition MaxScanTokenSize : Z := 65536.

Definition ErrTooLong : error := errors_New "bufio.Scanner: token too long".

(** The byte runs between line feeds; a last run without a line feed counts
    when it is not empty ([bufio.ScanLines] before [dropCR]). *)
Fixpoint raw_lines (s : string) (cur : string) : list string :=
  match s with
  | EmptyString => flush cur
  | String c s' =>
    if Ascii.eqb c "010"%char then cur :: raw_lines s' EmptyString
    else raw_lines s' (cur ++ String c EmptyString)
  end.

(** [dropCR]: one trailing carriage return is removed. *)
Definition dropCR (l : string) : string :=
  match srev l with
  | String c r => if Ascii.eqb c "013"%char then srev r else l
  | EmptyString => l
  end.

(** What a [bufio.Scanner] with the default split function delivers: the
    tokens of the successive [Scan] calls that return true, then the value
    of [Err()].  A line of [MaxScanTokenSize] bytes or more stops the scan
    with [ErrTooLong]; a read error [rerr] of the underlying file is
    reported after the bytes read before it have been tokenised. *)
Fixpoint scan_tokens (raw : list string) (rerr : option error)
  : list string * option error :=
  match raw with
  | [] => ([], rerr)
  | l :: rest =>
    if (MaxScanTokenSize <=? Z.of_nat (String.length l))%Z
    then ([], Some ErrTooLong)
    else let (ts, e) := scan_tokens rest rerr in (dropCR l :: ts, e)
  end.

(** A file as [os.Open] and the reads see it. *)
Inductive File : Type :=
| NoFile (e : error)
| Data (content : string) (rerr : option error).

Definition Scanner (content : string) (rerr : option error)
  : list string * option error :=
  scan_tokens (raw_lines content EmptyString) rerr.

(* ------------------------------------------------------------------ *)
(** ** The environment *)

(** What the code consults outside itself.  [os_Open] is the file system as
    the two readers see it, [os_Stat] tells whether [os.Stat] succeeds on a
    path, [url_Parse] is the error of [net/url.Parse] inside
    [http.NewRequest] ([None] when the URL parses), [CanonicalMIMEHeaderKey]
    is the key normalisation of [http.Header.Add], [chromedp_Run k] is the
    outcome of the launch and blank-page navigation of the [k]-th engine
    start ([None] on success), and [select_pick k] is the case the runtime
    takes at the [k]-th [select] in which both the channel operation and
    [ctx.Done()] are ready ([true]: the channel operation). *)
Record Env : Type := {
  os_Open : string -> File;
  os_Stat : string -> bool;
  unicode_upper : string -> string;
  url_Parse : string -> option error;
  CanonicalMIMEHeaderKey : string -> string;
  chromedp_Run : nat -> option error;
  select_pick : nat -> bool
}.

(* ------------------------------------------------------------------ *)
(** ** package payloads: [PayloadParser] *)

(** The field of [arguments.Arguments] that the reader uses. *)
Record Arguments : Type := { PayloadFile : string }.

Record PayloadParser : Type := { args : Arguments }.

Definition NewPayload (a : Arguments) : PayloadParser := {| args := a |}.

Definition ReadLinesFromFile (env : Env) (p : PayloadParser)
  : result (list string) :=
  match os_Open env (PayloadFile (args p)) with
  | NoFile e => Err e
  | Data content rerr =>
    let (tokens, serr) := Scanner content rerr in
    let lines := map TrimSpace tokens in
    match serr with
    | Some e => Err e
    | None => Ok lines
    end
  end.

Definition EnsureProtocol (link : string) : string :=
  let link := TrimSpace link in
  if negb (HasPrefix link "http://") && negb (HasPrefix link "https://")
  then "https://" ++ link
  else link.

(* ------------------------------------------------------------------ *)
(** ** package browser: [RequestParser] *)

(** An [*http.Request] as far as the parser fills it: the method, the URL
    text handed to [http.NewRequest], and the header as the sequence of
    [Header.Add] entries. *)
Record Request : Type := {
  Method : string;
  URL : string;
  Header : list (string * string)
}.

Record RequestParser : Type := { FilePath : string }.

Definition NewRequestParser (filePath : string) : RequestParser :=
  {| FilePath := filePath |}.

Definition validMethods (m : string) : bool :=
  existsb (String.eqb m)
    ["GET"; "POST"; "PUT"; "DELETE"; "HEAD"; "OPTIONS"; "PATCH"].

(** [http.NewRequest(method, url, nil)] for a method of [validMethods]. *)
Definition http_NewRequest (env : Env) (method url : string) : result Request :=
  match url_Parse env url with
  | Some e => Err e
  | None => Ok {| Method := method; URL := url; Header := [] |}
  end.

Definition Header_Add (env : Env) (req : Request) (key value : string) : Request :=
  {| Method := Method req; URL := URL req;
     Header := (Header req ++ [(CanonicalMIMEHeaderKey env key, value)])%list |}.

(** The text ["line %d: "] that starts every message of [parseRequestLine]. *)
Definition line_tag (lineNum : nat) : string := "line " ++ itoa lineNum ++ ": ".

Definition invalid_header (lineNum : nat) (headerPart : string) : error :=
  errors_New (line_tag lineNum ++ "invalid header format '" ++ headerPart ++ "'").

(** The loop [for i := 2; i < len(parts); i++] over [hs = parts[2:]]. *)
Fixpoint add_headers (env : Env) (lineNum : nat) (hs : list string)
  (req : Request) : result Request :=
  match hs with
  | [] => Ok req
  | headerPart :: rest =>
    if Contains headerPart ":" then
      match SplitN2 headerPart ":"%char with
      | [h0; h1] =>
        let headerName := TrimSpace h0 in
        let headerValue := TrimSpace h1 in
        add_headers env lineNum rest (Header_Add env req headerName headerValue)
      | _ => Err (invalid_header lineNum headerPart)
      end
    else Err (invalid_header lineNum headerPart)
  end.

Definition parseRequestLine (env : Env) (line : string) (lineNum : nat)
  : result Request :=
  let parts := Fields line in
  if (List.length parts <? 2)%nat then
    Err (errors_New (line_tag lineNum
           ++ "invalid request format, expected at least METHOD and URL"))
  else
    let method := ToUpper (unicode_upper env) (nth 0 parts "") in
    let url := nth 1 parts "" in
    if negb (validMethods method) then
      Err (errors_New (line_tag lineNum ++ "invalid HTTP method '" ++ method ++ "'"))
    else
      match http_NewRequest env method url with
      | Err e => Err (Errorf_w (line_tag lineNum ++ "failed to create request: ") e)
      | Ok req => add_headers env lineNum (skipn 2 parts) req
      end.

(** A line that the scan loop hands to [parseRequestLine]. *)
Definition is_request_line (line : string) : bool :=
  negb ((line =? "") || HasPrefix line "#").

(** The [for scanner.Scan()] loop; [lineNum] counts the tokens read so far
    (an [int] that a file, of fewer than 2^63 bytes, cannot overflow). *)
Fixpoint parse_lines (env : Env) (tokens : list string) (lineNum : nat)
  (requests : list Request) : result (list Request) :=
  match tokens with
  | [] => Ok requests
  | t :: rest =>
    let lineNum := S lineNum in
    let line := TrimSpace t in
    if negb (is_request_line line) then parse_lines env rest lineNum requests
    else
      match parseRequestLine env line lineNum with
      | Err e => Err e
      | Ok req => parse_lines env rest lineNum (requests ++ [req])%list
      end
  end.

Definition ParseRequests (env : Env) (p : RequestParser)
  : result (list Request) :=
  if FilePath p =? "" then Err (errors_New "no request file path provided")
  else
    match os_Open env (FilePath p) with
    | NoFile e => Err (Errorf_w "failed to open request file: " e)
    | Data content rerr =>
      let (tokens, serr) := Scanner content rerr in
      match parse_lines env tokens 0 [] with
      | Err e => Err e
      | Ok requests =>
        match serr with
        | Some e => Err (Errorf_w "error reading request file: " e)
        | None =>
          if (List.length requests =? 0)%nat
          then Err (errors_New "no valid requests found in file")
          else Ok requests
        end
      end
    end.

(* ------------------------------------------------------------------ *)
(** ** The world: console and engine events *)

(** The format constants of package [colours]; only which one is used is
    recorded. *)
Inductive Colour : Type :=
| ErrorColor | WarningColor | InfoColor | SuccessColor | NoticeColor.

(** [BrowserType] is a Go string type. *)
Definition BrowserType : Type := string.
Definition Chrome : BrowserType := "chrome".
Definition Chromium : BrowserType := "chromium".
Definition Firefox : BrowserType := "firefox".

(** A session handle is the number of the engine start that made it; the
    release capability returned with it carries the same number. *)
Definition Handle : Type := nat.

Inductive Event : Type :=
| Printf (c : Colour) (msg : string)   (* fmt.Printf(colours.c, msg) *)
| InstallationHelp (t : BrowserType)   (* printBrowserInstallationHelp *)
| Launch (id : Handle) (path : string) (* chromedp.Run(.., Navigate("about:blank")) *)
| CancelSession (id : Handle)          (* the timeoutCancel of session id is called *)
| CancelAllocator (id : Handle)        (* the allocator cancel of session id is called *)
| CancelPool                           (* p.cancel() *)
| Sleep100ms.

(** [created] counts the calls of [CreateContext], [launched] the engine
    starts, [selects] the contested [select] statements. *)
Record World : Type := {
  trace : list Event;
  created : nat;
  launched : nat;
  selects : nat
}.

Definition world0 : World :=
  {| trace := []; created := 0; launched := 0; selects := 0 |}.

Definition emit (w : World) (es : list Event) : World :=
  {| trace := (trace w ++ es)%list; created := created w;
     launched := launched w; selects := selects w |}.

Definition count_created (w : World) : World :=
  {| trace := trace w; created := S (created w);
     launched := launched w; selects := selects w |}.

Definition count_launched (w : World) : World :=
  {| trace := trace w; created := created w;
     launched := S (launched w); selects := selects w |}.

Definition count_select (w : World) : World :=
  {| trace := trace w; created := created w;
     launched := launched w; selects := S (selects w) |}.

(* ------------------------------------------------------------------ *)
(** ** package browser: [Browser] *)

Record Browser : Type := {
  Type_ : BrowserType;
  Path : string;
  browsers : list string
}.

Definition chrome_paths : list string :=
  [ "/usr/bin/google-chrome";
    "/usr/bin/google-chrome-stable";
    "/usr/local/bin/google-chrome";
    "/Applications/Google Chrome.app/Contents/MacOS/Google Chrome";
    "C:\Program Files\Google\Chrome\Application\chrome.exe";
    "C:\Program Files (x86)\Google\Chrome\Application\chrome.exe" ].

Definition chromium_paths : list string :=
  [ "/usr/bin/chromium";
    "/usr/bin/chromium-browser";
    "/usr/local/bin/chromium";
    "/Applications/Chromium.app/Contents/MacOS/Chromium";
    "C:\Program Files\Chromium\Application\chrome.exe" ].

Definition firefox_paths : list string :=
  [ "/usr/bin/firefox";
    "/usr/local/bin/firefox";
    "/Applications/Firefox.app/Contents/MacOS/firefox";
    "C:\Program Files\Mozilla Firefox\firefox.exe";
    "C:\Program Files (x86)\Mozilla Firefox\firefox.exe" ].

Definition initBrowserPaths (b : Browser) : Browser :=
  let bs :=
    if Type_ b =? Chrome then chrome_paths
    else if Type_ b =? Chromium then chromium_paths
    else if Type_ b =? Firefox then firefox_paths
    else browsers b in
  let bs := if negb (Path b =? "") then Path b :: bs else bs in
  {| Type_ := Type_ b; Path := Path b; browsers := bs |}.

Definition NewBrowser (browserType customPath : string) (w : World)
  : Browser * World :=
  let bt : BrowserType := browserType in
  let unsupported :=
    negb (bt =? Chrome) && negb (bt =? Chromium) && negb (bt =? Firefox) in
  let w :=
    if unsupported
    then emit w [Printf ErrorColor ("Unsupported browser type: " ++ browserType
                                    ++ ". Using Chrome as default.")]
    else w in
  let bt := if unsupported then Chrome else bt in
  (initBrowserPaths {| Type_ := bt; Path := customPath; browsers := [] |}, w).

Definition ErrNotFound : error := errors_New "browser executable not found".

Definition findBrowserPath (env : Env) (b : Browser) (w : World)
  : result string * World :=
  if negb (Path b =? "") && os_Stat env (Path b) then (Ok (Path b), w)
  else
    let w :=
      if negb (Path b =? "")
      then emit w [Printf WarningColor ("Custom browser path not found: " ++ Path b
                                        ++ ". Trying default locations.")]
      else w in
    match find (os_Stat env) (browsers b) with
    | Some path => (Ok path, w)
    | None => (Err ErrNotFound, w)
    end.

Definition ErrFirefox : error :=
  errors_New "firefox support is currently experimental and not fully implemented".

(** [CreateContext(ctx)].  The parent [ctx] is the pool's lifetime token;
    what it does to the launch is part of the answer of [chromedp_Run].  The
    two [defer]red cancels run at every return after the allocator is made,
    the successful one included. *)
Definition CreateContext (env : Env) (b : Browser) (w : World)
  : result Handle * World :=
  let w := count_created w in
  let (r, w) := findBrowserPath env b w in
  match r with
  | Err err =>
    (Err (Errorf_w "browser not found: " err), emit w [InstallationHelp (Type_ b)])
  | Ok path =>
    if (Type_ b =? Chrome) || (Type_ b =? Chromium) then
      let id := launched w in
      let w := emit (count_launched w) [Launch id path] in
      match chromedp_Run env id with
      | Some err =>
        (Err (Errorf_w "failed to start browser: " err),
         emit w [CancelSession id; CancelSession id; CancelAllocator id])
      | None =>
        (Ok id, emit w [CancelSession id; CancelAllocator id])
      end
    else if Type_ b =? Firefox then (Err ErrFirefox, w)
    else (Err (errors_New "unsupported browser type"), w)
  end.

(* ------------------------------------------------------------------ *)
(** ** package browser: [BrowserPool] *)

(** The pool is followed along one thread of control: a call runs to its
    return before the next one starts.  A call that would wait for another
    goroutine (a send on the full channel, [WaitGroup.Wait] on a pending
    initialisation) never returns in such a run: [Blocks]. A [select] none
    of whose channel cases is ready returns by its timer case. *)
Inductive outcome (A : Type) : Type :=
| Returns (a : A)
| Blocks.
Arguments Returns {A} a.
Arguments Blocks {A}.

(** [pool] is the content of the buffered channel, oldest first, of
    capacity [maxWorkers]; [cancelFuncs] holds the release capabilities;
    [ctx_done] tells whether the lifetime token [ctx] is cancelled;
    [initialization] is the counter of the [sync.WaitGroup].  [maxWorkers]
    is a natural number: [make(chan context.Context, maxWorkers)] panics on
    a negative size, so no pool exists for one. *)
Record BrowserPool : Type := {
  browser : Browser;
  pool : list Handle;
  cancelFuncs : list Handle;
  maxWorkers : nat;
  ctx_done : bool;
  initializing : bool;
  initialized : bool;
  initErrCount : nat;
  initialization : nat
}.

Definition NewBrowserPool (b : Browser) (maxWorkers : nat) : BrowserPool :=
  {| browser := b; pool := []; cancelFuncs := []; maxWorkers := maxWorkers;
     ctx_done := false; initializing := false; initialized := false;
     initErrCount := 0; initialization := 0 |}.

Definition set_pool (p : BrowserPool) (l : list Handle) : BrowserPool :=
  {| browser := browser p; pool := l; cancelFuncs := cancelFuncs p;
     maxWorkers := maxWorkers p; ctx_done := ctx_done p;
     initializing := initializing p; initialized := initialized p;
     initErrCount := initErrCount p; initialization := initialization p |}.

Definition set_cancelFuncs (p : BrowserPool) (l : list Handle) : BrowserPool :=
  {| browser := browser p; pool := pool p; cancelFuncs := l;
     maxWorkers := maxWorkers p; ctx_done := ctx_done p;
     initializing := initializing p; initialized := initialized p;
     initErrCount := initErrCount p; initialization := initialization p |}.

Definition set_ctx_done (p : BrowserPool) (d : bool) : BrowserPool :=
  {| browser := browser p; pool := pool p; cancelFuncs := cancelFuncs p;
     maxWorkers := maxWorkers p; ctx_done := d;
     initializing := initializing p; initialized := initialized p;
     initErrCount := initErrCount p; initialization := initialization p |}.

Definition set_initializing (p : BrowserPool) (v : bool) : BrowserPool :=
  {| browser := browser p; pool := pool p; cancelFuncs := cancelFuncs p;
     maxWorkers := maxWorkers p; ctx_done := ctx_done p;
     initializing := v; initialized := initialized p;
     initErrCount := initErrCount p; initialization := initialization p |}.

Definition set_initialized (p : BrowserPool) (v : bool) : BrowserPool :=
  {| browser := browser p; pool := pool p; cancelFuncs := cancelFuncs p;
     maxWorkers := maxWorkers p; ctx_done := ctx_done p;
     initializing := initializing p; initialized := v;
     initErrCount := initErrCount p; initialization := initialization p |}.

Definition set_initErrCount (p : BrowserPool) (n : nat) : BrowserPool :=
  {| browser := browser p; pool := pool p; cancelFuncs := cancelFuncs p;
     maxWorkers := maxWorkers p; ctx_done := ctx_done p;
     initializing := initializing p; initialized := initialized p;
     initErrCount := n; initialization := initialization p |}.

Definition set_initialization (p : BrowserPool) (n : nat) : BrowserPool :=
  {| browser := browser p; pool := pool p; cancelFuncs := cancelFuncs p;
     maxWorkers := maxWorkers p; ctx_done := ctx_done p;
     initializing := initializing p; initialized := initialized p;
     initErrCount := initErrCount p; initialization := n |}.

(** Room in the channel for one more send. *)
Definition has_room (p : BrowserPool) : bool :=
  (List.length (pool p) <? maxWorkers p)%nat.

Definition ErrInit : error := errors_New "failed to initialize any browser workers".

(** The loop [for i := 0; i < p.maxWorkers; i++] of [Initialize], with
    [n] iterations left. *)
Fixpoint init_loop (env : Env) (n i : nat) (p : BrowserPool) (w : World)
  : outcome (BrowserPool * World) :=
  match n with
  | O => Returns (p, w)
  | S n' =>
    let (r, w) := CreateContext env (browser p) w in
    match r with
    | Err err =>
      let p := set_initErrCount p (S (initErrCount p)) in
      let count := initErrCount p in
      let w :=
        if (count =? 1)%nat
        then emit w [Printf WarningColor
                       ("Error initializing browser worker: " ++ Error err
                        ++ String "010"%char "")]
        else w in
      init_loop env n' (S i) p w
    | Ok browserCtx =>
      let p := set_cancelFuncs p (cancelFuncs p ++ [browserCtx])%list in
      if has_room p then
        let p := set_pool p (pool p ++ [browserCtx])%list in
        let w := emit w [Printf SuccessColor
                           ("Browser worker " ++ itoa (i + 1) ++ " initialized"
                            ++ String "010"%char "")] in
        init_loop env n' (S i) p w
      else Blocks
    end
  end.

Definition Initialize (env : Env) (p : BrowserPool) (w : World)
  : outcome (option error * BrowserPool * World) :=
  if initializing p || initialized p then Returns (None, p, w)
  else
    let p := set_initializing p true in
    let p := set_initialization p (S (initialization p)) in
    let w := emit w [Printf InfoColor
                       ("Initializing browser pool with " ++ itoa (maxWorkers p)
                        ++ " workers..." ++ String "010"%char "")] in
    match init_loop env (maxWorkers p) 0 p w with
    | Blocks => Blocks
    | Returns (p, w) =>
      let p := set_initializing p false in
      if (0 <? List.length (cancelFuncs p))%nat then
        let p := set_initialized p true in
        let w := emit w [Printf SuccessColor
                           ("Browser pool initialized with "
                            ++ itoa (List.length (cancelFuncs p)) ++ " workers"
                            ++ String "010"%char "")] in
        Returns (None, set_initialization p (pred (initialization p)), w)
      else
        Returns (Some ErrInit, set_initialization p (pred (initialization p)), w)
    end.

Definition ErrClosed : error := errors_New "browser pool is closed".
Definition ErrTimeout : error := errors_New "timeout waiting for browser context".

(** The [select] of [GetContext]: receive from the channel, [ctx.Done()],
    or the five-second timer. *)
Definition select_get (env : Env) (p : BrowserPool) (w : World)
  : result Handle * BrowserPool * World :=
  match pool p, ctx_done p with
  | ctx :: rest, false => (Ok ctx, set_pool p rest, w)
  | ctx :: rest, true =>
    if select_pick env (selects w)
    then (Ok ctx, set_pool p rest, count_select w)
    else (Err ErrClosed, p, count_select w)
  | [], true => (Err ErrClosed, p, w)
  | [], false => (Err ErrTimeout, p, w)
  end.

(** [GetContext] after its first [if]: the wait for a running
    initialisation, the one-time context of a pool that is not initialised,
    and the normal pool operation.  The goroutine that the one-time branch
    starts to call [cancel] once more is not followed. *)
Definition GetContext_rest (env : Env) (p : BrowserPool) (w : World)
  : outcome (result Handle * BrowserPool * World) :=
  if initializing p && negb (initialization p =? 0)%nat then Blocks
  else if negb (initialized p) then
    let w := emit w [Printf WarningColor
                       ("Using one-time browser context as pool initialization failed"
                        ++ String "010"%char "")] in
    let (r, w) := CreateContext env (browser p) w in
    match r with
    | Err err => Returns (Err err, p, w)
    | Ok ctx => Returns (Ok ctx, p, w)
    end
  else Returns (select_get env p w).

Definition GetContext (env : Env) (p : BrowserPool) (w : World)
  : outcome (result Handle * BrowserPool * World) :=
  if negb (initialized p) && negb (initializing p) then
    match Initialize env p w with
    | Blocks => Blocks
    | Returns (Some err, p, w) => Returns (Err err, p, w)
    | Returns (None, p, w) => GetContext_rest env p w
    end
  else GetContext_rest env p w.

(** [ReleaseContext]: send to the channel, [ctx.Done()], or the one-second
    timer. *)
Definition ReleaseContext (env : Env) (p : BrowserPool) (ctx : Handle) (w : World)
  : BrowserPool * World :=
  if negb (initialized p) then (p, w)
  else
    match has_room p, ctx_done p with
    | true, false => (set_pool p (pool p ++ [ctx])%list, w)
    | true, true =>
      if select_pick env (selects w)
      then (set_pool p (pool p ++ [ctx])%list, count_select w)
      else (p, count_select w)
    | false, true => (p, w)
    | false, false =>
      (p, emit w [Printf WarningColor
                    ("Timeout returning browser context to pool, discarding"
                     ++ String "010"%char "")])
    end.

Definition Close (p : BrowserPool) (w : World) : BrowserPool * World :=
  let w := emit w [CancelPool] in
  let p := set_ctx_done p true in
  let w := emit w [Sleep100ms] in
  let w := emit w (map CancelSession (cancelFuncs p)) in
  let p := set_cancelFuncs p [] in
  let p := set_initialized p false in
  (p, w).

(** [n] calls of [GetContext] in a row; the results in call order. *)
Fixpoint GetContexts (env : Env) (n : nat) (p : BrowserPool) (w : World)
  : outcome (list (result Handle) * BrowserPool * World) :=
  match n with
  | O => Returns ([], p, w)
  | S n' =>
    match GetContext env p w with
    | Blocks => Blocks
    | Returns (r, p, w) =>
      match GetContexts env n' p w with
      | Blocks => Blocks
      | Returns (rs, p, w) => Returns (r :: rs, p, w)
      end
    end
  end.

(* ------------------------------------------------------------------ *)
(** ** Concrete environments used by the examples *)

Definition nl : string := String "010"%char "".

(** A machine with one file and, when [chrome] is set, Google Chrome at its
    usual Linux path; [run] answers the engine starts.  URLs parse and
    header keys are kept as written, which is what the libraries do on the
    inputs the examples use. *)
Definition example_env (content : string) (chrome : bool)
  (run : nat -> option error) : Env :=
  {| os_Open := fun _ => Data content None;
     os_Stat := fun path => chrome && (path =? "/usr/bin/google-chrome");
     unicode_upper := fun s => s;
     url_Parse := fun _ => None;
     CanonicalMIMEHeaderKey := fun s => s;
     chromedp_Run := run;
     select_pick := fun _ => true |}.

Definition start_fails : option error := Some (errors_New "exec: context deadline exceeded").

(* ------------------------------------------------------------------ *)
(** ** Definitions used in the statements *)

(** Number of colons of a token. *)
Fixpoint colons (s : string) : nat :=
  match s with
  | EmptyString => 0
  | String c s' => (if Ascii.eqb c ":"%char then 1 else 0) + colons s'
  end.

Definition short_line (l : string) : bool :=
  (Z.of_nat (String.length l) <? MaxScanTokenSize)%Z.

(** The reader as the specification words it: trimmed lines, blank ones
    dropped. *)
Definition nonblank (s : string) : bool := negb (s =? "").

Definition read_lines_dropping_blanks (env : Env) (p : PayloadParser)
  : result (list string) :=
  match os_Open env (PayloadFile (args p)) with
  | NoFile e => Err e
  | Data content rerr =>
    let (tokens, serr) := Scanner content rerr in
    match serr with
    | Some e => Err e
    | None => Ok (filter nonblank (map TrimSpace tokens))
    end
  end.

Definition payloads_with_blank : Env :=
  example_env ("a" ++ nl ++ nl ++ " b " ++ nl) false (fun _ => None).

(** The header entry that a token with a colon contributes. *)
Definition header_pair (env : Env) (h : string) : string * string :=
  match SplitN2 h ":"%char with
  | [h0; h1] => (CanonicalMIMEHeaderKey env (TrimSpace h0), TrimSpace h1)
  | _ => (EmptyString, EmptyString)
  end.

Definition two_colon_request : Env :=
  example_env ("GET http://a X:y:z" ++ nl) false (fun _ => None).

Definition mixed_requests : Env :=
  example_env ("GET http://a X:y:z" ++ nl ++ "# note" ++ nl ++ "post http://b Xy")
              false (fun _ => None).

Definition custom_chrome : Browser := fst (NewBrowser "chrome" "/opt/chrome" world0).

Definition only_custom : Env :=
  {| os_Open := fun _ => NoFile (errors_New "open: no such file or directory");
     os_Stat := fun path => path =? "/opt/chrome";
     unicode_upper := fun s => s;
     url_Parse := fun _ => None;
     CanonicalMIMEHeaderKey := fun s => s;
     chromedp_Run := fun _ => None;
     select_pick := fun _ => true |}.

Definition firefox : Browser := fst (NewBrowser "firefox" "" world0).

Definition is_launch (e : Event) : bool :=
  match e with Launch _ _ => true | _ => false end.

Definition firefox_installed : Env :=
  {| os_Open := fun _ => NoFile (errors_New "open: no such file or directory");
     os_Stat := fun path => path =? "/usr/bin/firefox";
     unicode_upper := fun s => s;
     url_Parse := fun _ => None;
     CanonicalMIMEHeaderKey := fun s => s;
     chromedp_Run := fun _ => None;
     select_pick := fun _ => true |}.

(** The locator finds an executable for [b] and the kind of [b] is one the
    engine drives: the calls of [CreateContext] reach the engine start. *)
Definition launchable (env : Env) (b : Browser) : bool :=
  is_ok (fst (findBrowserPath env b world0))
  && ((Type_ b =? Chrome) || (Type_ b =? Chromium)).

Definition start_ok (env : Env) (id : Handle) : bool :=
  match chromedp_Run env id with None => true | Some _ => false end.

(** The handles that [n] consecutive calls of [CreateContext] return when
    the first of them makes engine start number [from]. *)
Definition successes (env : Env) (b : Browser) (from n : nat) : list Handle :=
  if launchable env b then filter (start_ok env) (seq from n) else [].

(** The pool after the loop, given the handles it gained. *)
Definition grown (p : BrowserPool) (good : list Handle) (errs : nat) : BrowserPool :=
  {| browser := browser p; pool := (pool p ++ good)%list;
     cancelFuncs := (cancelFuncs p ++ good)%list;
     maxWorkers := maxWorkers p; ctx_done := ctx_done p;
     initializing := initializing p; initialized := initialized p;
     initErrCount := initErrCount p + errs; initialization := initialization p |}.

Definition ready (p : BrowserPool) : Prop :=
  initialized p = true /\ initializing p = false.

(** The pool that [Initialize] leaves when it starts from a pool without
    handles. *)
Definition initialised (p : BrowserPool) (good : list Handle) : BrowserPool :=
  {| browser := browser p; pool := good; cancelFuncs := good;
     maxWorkers := maxWorkers p; ctx_done := ctx_done p;
     initializing := false;
     initialized := (0 <? List.length good)%nat;
     initErrCount := initErrCount p + (maxWorkers p - List.length good);
     initialization := initialization p |}.

(** Scenario A of the specification: three workers, the second engine start
    fails. *)
Definition second_start_fails : Env :=
  example_env "" true (fun k => if (k =? 1)%nat then start_fails else None).

Definition chrome : Browser := fst (NewBrowser "chrome" "" world0).

Definition no_browser : Env := example_env "" false (fun _ => None).

Definition is_one_time_warning (e : Event) : bool :=
  match e with
  | Printf WarningColor msg =>
    msg =? "Using one-time browser context as pool initialization failed"
           ++ String "010"%char ""
  | _ => false
  end.

(** Chrome is installed; the two engine starts of the first [Initialize]
    fail and every later start succeeds. *)
Definition recovers_after_two : Env :=
  example_env "" true (fun k => if (k <? 2)%nat then start_fails else None).

(** Chrome is installed; the first four engine starts fail and every later
    one succeeds. *)
Definition recovers_after_four : Env :=
  example_env "" true (fun k => if (k <? 4)%nat then start_fails else None).

(** Chrome is installed and no engine start ever succeeds (scenario B). *)
Definition never_starts : Env := example_env "" true (fun _ => start_fails).

Definition always_starts : Env := example_env "" true (fun _ => None).

Definition ready_pair : BrowserPool :=
  initialised (NewBrowserPool chrome 2) [0; 1].

(** How many times the release capability [id] is called in [es]. *)
Definition is_release (id : Handle) (e : Event) : bool :=
  match e with CancelSession k => (k =? id)%nat | _ => false end.

Definition released (id : Handle) (es : list Event) : nat :=
  List.length (filter (is_release id) es).

(** The events that a run added to the trace of [w]. *)
Definition since (w w' : World) : list Event :=
  skipn (List.length (trace w)) (trace w').

(* ------------------------------------------------------------------ *)
(** ** package payloads: the dispatch loop *)

Definition has_protocol (link : string) : bool :=
  HasPrefix link "http://" || HasPrefix link "https://".

(** What [ProcessPayloadsAndHeaders] does to the outside: its console
    lines and its calls of [Scan] on the scanner it has made.  The scanner
    of package [scan] is not followed further. *)
Inductive Action : Type :=
| Say (c : Colour) (msg : string)           (* fmt.Printf(colours.c, msg) *)
| SayLine (msg : string)                    (* fmt.Println(msg) *)
| ScanCall (link payload header : string).  (* newScanner.Scan(link, payload, header) *)

Definition ProcessPayloadsAndHeaders (link : string)
  (payloads headers : list string) : list Action :=
  let link := EnsureProtocol link in
  ([Say NoticeColor ("Checking URL Scheme: " ++ link); SayLine ""]
   ++ if (List.length headers =? 0)%nat then
        map (fun payload => ScanCall link payload "") payloads
      else
        flat_map (fun payload =>
                    map (fun header => ScanCall link payload header) headers)
                 payloads)%list.

(** The [Scan] calls among the actions, in order. *)
Definition scans (acts : list Action) : list (string * string * string) :=
  flat_map (fun a => match a with
                     | ScanCall l p h => [(l, p, h)]
                     | _ => []
                     end) acts.

(* ------------------------------------------------------------------ *)
(** ** package browser: [ExecuteRequests] *)

(** An [*http.Response] is only counted and closed: it is the number that
    the network gave it. *)
Definition Response : Type := nat.

(** The network: [client_Do k ctx req] is the outcome of the [k]-th
    [client.Do] of a run, for [req] bound to the context [ctx];
    [URL_String u] is [req.URL.String()] for the URL parsed from [u]. *)
Record Net : Type := {
  client_Do : nat -> Handle -> Request -> result Response;
  URL_String : string -> string
}.

(** The loop [for _, req := range requests] of [ExecuteRequests]; the second
    component lists the requests handed to [client.Do]. *)
Fixpoint do_requests (net : Net) (ctx : Handle) (requests : list Request)
  (k : nat) (responses : list Response)
  : result (list Response) * list Request :=
  match requests with
  | [] => (Ok responses, [])
  | req :: rest =>
    match client_Do net k ctx req with
    | Err err =>
      (Err (Errorf_w ("failed to execute request to " ++ URL_String net (URL req)
                      ++ ": ") err),
       [req])
    | Ok resp =>
      let (r, sent) := do_requests net ctx rest (S k) (responses ++ [resp])%list in
      (r, req :: sent)
    end
  end.

Definition ExecuteRequests (env : Env) (net : Net) (p : RequestParser)
  (ctx : Handle) : result (list Response) * list Request :=
  match ParseRequests env p with
  | Err err => (Err err, [])
  | Ok requests => do_requests net ctx requests 0 []
  end.

(* ------------------------------------------------------------------ *)
(** ** package payloads: [ProcessCustomRequests] *)

(** The [RequestParser] of package [payloads]; its [args] field is nil. *)
Record CustomRequests : Type := { filePath : string }.

(** What a run of [ProcessCustomRequests] leaves: its error, the world,
    the requests sent and the responses whose body it closed. *)
Record CustomRun : Type := {
  run_error : option error;
  run_world : World;
  run_sent : list Request;
  run_closed : list Response
}.

(** [ProcessCustomRequests(limiter, payloads)]; the limiter is not used by
    the body and is left out.  The deferred [cancel()] runs at every return
    after the context is made. *)
Definition ProcessCustomRequests (env : Env) (net : Net) (p : CustomRequests)
  (payloads : list string) (w : World) : CustomRun :=
  let parser := NewRequestParser (filePath p) in
  let (b, w) := NewBrowser "chrome" "" w in
  let (r, w) := CreateContext env b w in
  match r with
  | Err err =>
    {| run_error := Some (Errorf_w "failed to create browser context: " err);
       run_world := w; run_sent := []; run_closed := [] |}
  | Ok ctx =>
    let w := emit w [Printf InfoColor "Processing custom requests from file..."] in
    let (res, sent) := ExecuteRequests env net parser ctx in
    match res with
    | Err err =>
      {| run_error := Some err; run_world := emit w [CancelSession ctx];
         run_sent := sent; run_closed := [] |}
    | Ok responses =>
      let w := emit w [Printf InfoColor
                         ("Processed " ++ itoa (List.length responses)
                          ++ " custom requests successfully")] in
      {| run_error := None; run_world := emit w [CancelSession ctx];
         run_sent := sent; run_closed := responses |}
    end
  end.

(* ------------------------------------------------------------------ *)
(** ** Further definitions used in the statements *)

(** The trimmed request lines of a token list, in order. *)
Definition request_lines (tokens : list string) : list string :=
  filter is_request_line (map TrimSpace tokens).

(** The warning that [Initialize] prints for a failed worker. *)
Definition is_worker_warning (e : Event) : bool :=
  match e with
  | Printf WarningColor msg => HasPrefix msg "Error initializing browser worker: "
  | _ => false
  end.

Definition worker_warnings (es : list Event) : nat :=
  List.length (filter is_worker_warning es).

(** The buffer holds no more handles than the channel has slots. *)
Definition within_capacity (p : BrowserPool) : Prop :=
  List.length (pool p) <= maxWorkers p.

(** A string without white space at either end. *)
Definition trimmed (s : string) : Prop :=
  s = "" \/ (space_width s = 0 /\ space_width_rev (srev s) = 0).

(** A ready pool of three workers with two handles in the buffer. *)
Definition ready_of_three : BrowserPool :=
  initialised (NewBrowserPool chrome 3) [0; 1].

(** A network on which every request gets a response. *)
Definition answering : Net :=
  {| client_Do := fun k _ _ => Ok k; URL_String := fun u => u |}.

(** A network on which the second request of a run fails. *)
Definition second_fails : Net :=
  {| client_Do := fun k _ _ => if (k =? 1)%nat
                               then Err (errors_New "dial tcp: connection refused")
                               else Ok k;
     URL_String := fun u => u |}.

Definition three_requests : Env :=
  example_env ("GET http://a" ++ nl ++ "# second" ++ nl ++ "post http://b X:y"
               ++ nl ++ nl ++ "PUT http://c") true (fun _ => None).

Definition only_comments : Env :=
  example_env ("# nothing here" ++ nl ++ nl ++ "   " ++ nl) false (fun _ => None).

(* ------------------------------------------------------------------ *)
(** ** The string functions on sample inputs *)

Example TrimSpace_ascii :
  TrimSpace (String "009"%char " a b " ++ String "013"%char nl) = "a b".
Proof. reflexivity. Qed.

(** A no-break space (U+00A0, bytes C2 A0) is trimmed like a blank. *)
Example TrimSpace_nbsp :
  TrimSpace (String (ascii_of_nat 194) (String (ascii_of_nat 160) "x ")
             ++ String (ascii_of_nat 194) (String (ascii_of_nat 160) ""))
  = "x".
Proof. reflexivity. Qed.

Example Fields_request_line :
  Fields "  GET   http://a X:y:z " = ["GET"; "http://a"; "X:y:z"].
Proof. reflexivity. Qed.

Example SplitN2_first_colon : SplitN2 "X:y:z" ":"%char = ["X"; "y:z"].
Proof. reflexivity. Qed.

Example Scanner_lines :
  Scanner ("a" ++ String "013"%char nl ++ nl ++ "b") None = (["a"; ""; "b"], None).
Proof. reflexivity. Qed.

Example ToUpper_method : ToUpper (fun s => s) "post" = "POST".
Proof. reflexivity. Qed.

(* ------------------------------------------------------------------ *)
(** ** Facts about the string functions *)

Lemma append_assoc (a b c : string) : (a ++ b) ++ c = a ++ (b ++ c).
Proof. induction a as [|x a IH]; simpl; [reflexivity | now rewrite IH]. Qed.

Lemma prefix_refl_append (a b : string) : String.prefix a (a ++ b) = true.
Proof.
  induction a as [|x a IH]; simpl.
  - destruct b; reflexivity.
  - destruct (ascii_dec x x) as [_|N]; [exact IH | now elim N].
Qed.

Lemma HasPrefix_tag (a b : string) : HasPrefix (a ++ b) a = true.
Proof. apply prefix_refl_append. Qed.

Lemma HasPrefix_tag2 (a b c : string) : HasPrefix ((a ++ b) ++ c) a = true.
Proof. rewrite append_assoc. apply HasPrefix_tag. Qed.

Lemma Contains_colon_cons (c : ascii) (s : string) :
  Contains (String c s) ":" = Ascii.eqb c ":"%char || Contains s ":".
Proof.
  cbn [Contains String.prefix].
  destruct (ascii_dec ":"%char c) as [E|N].
  - subst c. destruct s; reflexivity.
  - assert (Ascii.eqb c ":"%char = false) as ->
      by (apply Ascii.eqb_neq; congruence).
    reflexivity.
Qed.

Lemma Contains_colon_nil : Contains "" ":" = false.
Proof. reflexivity. Qed.

(** A token with a colon is cut at its first colon. *)
Lemma SplitN2_colon (s : string) :
  Contains s ":" = true ->
  exists a b, SplitN2 s ":"%char = [a; b] /\ s = a ++ ":" ++ b
              /\ Contains a ":" = false.
Proof.
  induction s as [|c s IH]; intro H.
  - discriminate.
  - rewrite Contains_colon_cons in H. cbn [SplitN2].
    destruct (Ascii.eqb c ":"%char) eqn:E.
    + apply Ascii.eqb_eq in E. subst c.
      exists "", s. repeat split.
    + simpl in H. destruct (IH H) as (a & b & Hs & Heq & Hn).
      rewrite Hs. exists (String c a), b. repeat split.
      * simpl. now rewrite Heq.
      * rewrite Contains_colon_cons, E, Hn. reflexivity.
Qed.

(** A token without a colon is not cut. *)
Lemma SplitN2_no_colon (s : string) :
  Contains s ":" = false -> SplitN2 s ":"%char = [s].
Proof.
  induction s as [|c s IH]; intro H; [reflexivity|].
  rewrite Contains_colon_cons in H. apply orb_false_iff in H as [E H].
  cbn [SplitN2]. rewrite E, (IH H).
  destruct s; reflexivity.
Qed.

Lemma colons_Contains (s : string) :
  Contains s ":" = negb (colons s =? 0)%nat.
Proof.
  induction s as [|c s IH]; [reflexivity|].
  rewrite Contains_colon_cons, IH. cbn [colons].
  destruct (Ascii.eqb c ":"%char); reflexivity.
Qed.

(* ------------------------------------------------------------------ *)
(** ** The scanner *)

Lemma scan_tokens_short (raw : list string) (rerr : option error) :
  forallb short_line raw = true ->
  scan_tokens raw rerr = (map dropCR raw, rerr).
Proof.
  induction raw as [|l raw IH]; simpl; intro H; [reflexivity|].
  apply andb_true_iff in H as [Hl Hr]. unfold short_line in Hl.
  apply Z.ltb_lt in Hl.
  destruct (Z.leb_spec MaxScanTokenSize (Z.of_nat (String.length l))); [lia|].
  now rewrite (IH Hr).
Qed.

Lemma scan_tokens_long (raw : list string) (rerr : option error) :
  forallb short_line raw = false ->
  snd (scan_tokens raw rerr) = Some ErrTooLong.
Proof.
  induction raw as [|l raw IH]; simpl; intro H; [discriminate|].
  destruct (Z.leb_spec MaxScanTokenSize (Z.of_nat (String.length l))) as [L|L].
  - reflexivity.
  - assert (short_line l = true) as Hl by (apply Z.ltb_lt; exact L).
    rewrite Hl in H. simpl in H. specialize (IH H).
    destruct (scan_tokens raw rerr). exact IH.
Qed.

(* ------------------------------------------------------------------ *)
(** ** C7: the line-oriented list reader *)

(** C7, as stated, fails: on the three-line file [a], blank, [ b ] the
    reader returns three entries, the middle one the empty string, where the
    claim's reader returns two. *)
Lemma ReadLinesFromFile_keeps_blank_lines :
  ReadLinesFromFile payloads_with_blank (NewPayload {| PayloadFile := "payloads.txt" |})
    = Ok ["a"; ""; "b"]
  /\ read_lines_dropping_blanks payloads_with_blank
       (NewPayload {| PayloadFile := "payloads.txt" |}) = Ok ["a"; "b"].
Proof. split; vm_compute; reflexivity. Qed.

(** C7, amended: when the file opens, is read without error and has no line
    of 64 KiB or more, [ReadLinesFromFile] returns every line of the file --
    blank ones included, as empty strings -- trimmed of surrounding white
    space, in file order and without deduplication; when [os.Open] fails, a
    read fails or a line is too long it returns that error and no lines. *)
Theorem ReadLinesFromFile_lines (env : Env) (p : PayloadParser) :
  match os_Open env (PayloadFile (args p)) with
  | NoFile e => ReadLinesFromFile env p = Err e
  | Data content rerr =>
    let raw := raw_lines content "" in
    if forallb short_line raw then
      match rerr with
      | Some e => ReadLinesFromFile env p = Err e
      | None =>
        ReadLinesFromFile env p = Ok (map (fun l => TrimSpace (dropCR l)) raw)
      end
    else ReadLinesFromFile env p = Err ErrTooLong
  end.
Proof.
  unfold ReadLinesFromFile, Scanner.
  destruct (os_Open env (PayloadFile (args p))) as [e|content rerr]; [reflexivity|].
  cbv zeta.
  destruct (forallb short_line (raw_lines content "")) eqn:S.
  - rewrite (scan_tokens_short _ rerr S).
    destruct rerr; [reflexivity|]. now rewrite map_map.
  - pose proof (scan_tokens_long _ rerr S) as L.
    destruct (scan_tokens (raw_lines content "") rerr) as [ts e].
    simpl in L. now subst e.
Qed.

(* ------------------------------------------------------------------ *)
(** ** C8: header tokens of the custom-request grammar *)

Lemma add_headers_ok (env : Env) (n : nat) (hs : list string) :
  forall req,
    Forall (fun h => Contains h ":" = true) hs ->
    add_headers env n hs req
    = Ok {| Method := Method req; URL := URL req;
            Header := (Header req ++ map (header_pair env) hs)%list |}.
Proof.
  induction hs as [|h hs IH]; intros req F.
  - simpl. rewrite app_nil_r. now destruct req.
  - inversion F as [|? ? Hh Ht]; subst. cbn [add_headers]. rewrite Hh.
    destruct (SplitN2_colon h Hh) as (a & b & Hs & _ & _).
    rewrite Hs. rewrite (IH _ Ht). unfold Header_Add, header_pair. cbn.
    rewrite Hs, <- app_assoc. reflexivity.
Qed.

Lemma add_headers_no_colon (env : Env) (n : nat) (hs : list string) (h : string) :
  In h hs -> Contains h ":" = false ->
  forall req, exists e, add_headers env n hs req = Err e.
Proof.
  intros Hin Hc. induction hs as [|x hs IH]; [contradiction|].
  intro req. cbn [add_headers].
  destruct (Contains x ":") eqn:Cx.
  - destruct Hin as [->|Hin]; [congruence|].
    destruct (SplitN2_colon x Cx) as (a & b & Hs & _ & _). rewrite Hs.
    apply (IH Hin).
  - eexists; reflexivity.
Qed.

Lemma invalid_header_tag (n : nat) (h : string) :
  HasPrefix (Error (invalid_header n h)) (line_tag n) = true.
Proof. apply HasPrefix_tag. Qed.

Lemma add_headers_error_tag (env : Env) (n : nat) (hs : list string) :
  forall req e, add_headers env n hs req = Err e ->
                HasPrefix (Error e) (line_tag n) = true.
Proof.
  induction hs as [|x hs IH]; intros req e H; [discriminate|].
  cbn [add_headers] in H.
  destruct (Contains x ":").
  - destruct (SplitN2 x ":"%char) as [|a [|b [|c l]]];
      try (injection H as <-; apply invalid_header_tag).
    apply (IH _ _ H).
  - injection H as <-. apply invalid_header_tag.
Qed.

(** Every error of [parseRequestLine] starts with the tag of its line. *)
Lemma parseRequestLine_error_tag (env : Env) (line : string) (n : nat) (e : error) :
  parseRequestLine env line n = Err e ->
  HasPrefix (Error e) (line_tag n) = true.
Proof.
  unfold parseRequestLine. intro H.
  destruct (List.length (Fields line) <? 2)%nat.
  { injection H as <-. apply HasPrefix_tag. }
  destruct (negb (validMethods _)).
  { injection H as <-. apply HasPrefix_tag. }
  destruct (http_NewRequest env _ _) as [req|e'].
  - apply (add_headers_error_tag env n _ req e H).
  - injection H as <-.
    exact (HasPrefix_tag2 (line_tag n) "failed to create request: " (Error e')).
Qed.

Lemma parseRequestLine_no_colon (env : Env) (line : string) (n : nat) (h : string) :
  In h (skipn 2 (Fields line)) -> Contains h ":" = false ->
  exists e, parseRequestLine env line n = Err e.
Proof.
  intros Hin Hc. unfold parseRequestLine.
  destruct (List.length (Fields line) <? 2)%nat; [eexists; reflexivity|].
  destruct (negb (validMethods _)); [eexists; reflexivity|].
  destruct (http_NewRequest env _ _) as [req|e']; [|eexists; reflexivity].
  apply (add_headers_no_colon env n _ h Hin Hc).
Qed.

(** The scan loop stops at the first request line that does not parse. *)
Lemma parse_lines_first_failure (env : Env) (tokens : list string) :
  forall n acc i t,
    nth_error tokens i = Some t ->
    is_request_line (TrimSpace t) = true ->
    is_ok (parseRequestLine env (TrimSpace t) (S (n + i))) = false ->
    exists j tj e,
      j <= i /\ nth_error tokens j = Some tj
      /\ is_request_line (TrimSpace tj) = true
      /\ parseRequestLine env (TrimSpace tj) (S (n + j)) = Err e
      /\ parse_lines env tokens n acc = Err e
      /\ (forall k tk, k < j -> nth_error tokens k = Some tk ->
            is_request_line (TrimSpace tk) = true ->
            is_ok (parseRequestLine env (TrimSpace tk) (S (n + k))) = true).
Proof.
  induction tokens as [|x tokens IH]; intros n acc i t Hn Hr Hf.
  - destruct i; discriminate.
  - cbn [parse_lines].
    destruct (is_request_line (TrimSpace x)) eqn:Rx; cbn [negb].
    + destruct (parseRequestLine env (TrimSpace x) (S n)) as [req|e] eqn:Px.
      * destruct i as [|i].
        { injection Hn as <-. rewrite Nat.add_0_r, Px in Hf. discriminate. }
        simpl in Hn. rewrite <- Nat.add_succ_comm in Hf.
        destruct (IH (S n) (acc ++ [req])%list i t Hn Hr Hf)
          as (j & tj & e & Hj & Hnj & Hrj & Hpj & Hres & Hmin).
        exists (S j), tj, e. rewrite <- Nat.add_succ_comm.
        repeat split; try assumption; [lia|].
        intros k tk Hk Hnk Hrk. destruct k as [|k].
        { injection Hnk as <-. now rewrite Nat.add_0_r, Px. }
        rewrite <- Nat.add_succ_comm. apply (Hmin k tk); [lia|assumption..].
      * exists 0, x, e. rewrite Nat.add_0_r.
        repeat split; try assumption; try reflexivity; [lia|].
        intros k tk Hk. lia.
    + destruct i as [|i].
      { injection Hn as <-. congruence. }
      simpl in Hn. rewrite <- Nat.add_succ_comm in Hf.
      destruct (IH (S n) acc i t Hn Hr Hf)
        as (j & tj & e & Hj & Hnj & Hrj & Hpj & Hres & Hmin).
      exists (S j), tj, e. rewrite <- Nat.add_succ_comm.
      repeat split; try assumption; [lia|].
      intros k tk Hk Hnk Hrk. destruct k as [|k].
      { injection Hnk as <-. congruence. }
      rewrite <- Nat.add_succ_comm. apply (Hmin k tk); [lia|assumption..].
Qed.

(** C8, as stated, fails: the header token [X:y:z] has two colons, yet the
    file parses, the token giving the header [X] with value [y:z]. *)
Lemma ParseRequests_accepts_two_colons :
  In "X:y:z" (skipn 2 (Fields "GET http://a X:y:z"))
  /\ colons "X:y:z" = 2
  /\ is_request_line "GET http://a X:y:z" = true
  /\ ParseRequests two_colon_request (NewRequestParser "requests.txt")
     = Ok [ {| Method := "GET"; URL := "http://a"; Header := [("X", "y:z")] |} ].
Proof. repeat split; vm_compute; auto. Qed.

(** C8, amended: in a request file that opens, a non-blank non-comment line
    with a header token that contains no colon makes [ParseRequests] fail
    and return no request list; the error is the one of the first request
    line that fails to parse (this line, or an earlier one) and starts with
    that line's number.  A line with a valid method and URL whose header
    tokens each contain at least one colon parses, each token being cut at
    its first colon into a header name and value. *)
Theorem ParseRequests_header_tokens (env : Env) :
  (forall p content rerr i t h,
      FilePath p <> "" ->
      os_Open env (FilePath p) = Data content rerr ->
      nth_error (fst (Scanner content rerr)) i = Some t ->
      is_request_line (TrimSpace t) = true ->
      In h (skipn 2 (Fields (TrimSpace t))) ->
      colons h = 0 ->
      exists j tj e,
        j <= i
        /\ nth_error (fst (Scanner content rerr)) j = Some tj
        /\ is_request_line (TrimSpace tj) = true
        /\ parseRequestLine env (TrimSpace tj) (S j) = Err e
        /\ ParseRequests env p = Err e
        /\ HasPrefix (Error e) (line_tag (S j)) = true
        /\ (forall k tk, k < j ->
              nth_error (fst (Scanner content rerr)) k = Some tk ->
              is_request_line (TrimSpace tk) = true ->
              is_ok (parseRequestLine env (TrimSpace tk) (S k)) = true))
  /\
  (forall line n m u hs,
      Fields line = m :: u :: hs ->
      validMethods (ToUpper (unicode_upper env) m) = true ->
      url_Parse env u = None ->
      Forall (fun h => 1 <= colons h) hs ->
      parseRequestLine env line n
      = Ok {| Method := ToUpper (unicode_upper env) m; URL := u;
              Header := map (header_pair env) hs |}
      /\ Forall (fun h => exists a b,
                   h = a ++ ":" ++ b /\ colons a = 0
                   /\ header_pair env h
                      = (CanonicalMIMEHeaderKey env (TrimSpace a), TrimSpace b)) hs).
Proof.
  split.
  - intros p content rerr i t h Hp Ho Hn Hr Hin Hc.
    assert (Contains h ":" = false) as Hc'
      by (rewrite colons_Contains, Hc; reflexivity).
    destruct (parseRequestLine_no_colon env _ (S (0 + i)) h Hin Hc') as [e0 He0].
    assert (is_ok (parseRequestLine env (TrimSpace t) (S (0 + i))) = false) as Hf
      by (rewrite He0; reflexivity).
    destruct (parse_lines_first_failure env _ 0 [] i t Hn Hr Hf)
      as (j & tj & e & Hj & Hnj & Hrj & Hpj & Hres & Hmin).
    exists j, tj, e. simpl in Hpj.
    repeat split; try assumption.
    + unfold ParseRequests.
      destruct (String.eqb_spec (FilePath p) ""); [contradiction|].
      rewrite Ho. destruct (Scanner content rerr) as [tokens serr].
      simpl in Hres. now rewrite Hres.
    + apply (parseRequestLine_error_tag env _ _ e Hpj).
  - intros line n m u hs HF Hm Hu Hall.
    assert (Forall (fun h => Contains h ":" = true) hs) as Hall'.
    { eapply Forall_impl; [|exact Hall]. intros h Hh. cbv beta in Hh.
      rewrite colons_Contains. destruct (colons h); [lia|reflexivity]. }
    split.
    + unfold parseRequestLine. rewrite HF. cbn [List.length Nat.ltb Nat.leb nth skipn].
      rewrite Hm. cbn [negb]. unfold http_NewRequest. rewrite Hu.
      now rewrite (add_headers_ok env n hs _ Hall').
    + eapply Forall_impl; [|exact Hall']. intros h Hh. cbv beta in Hh.
      destruct (SplitN2_colon h Hh) as (a & b & Hs & Heq & Hn).
      exists a, b. repeat split; [exact Heq | |].
      * rewrite colons_Contains in Hn. destruct (colons a); [reflexivity|discriminate].
      * unfold header_pair. now rewrite Hs.
Qed.

Lemma ParseRequests_header_tokens_witness :
  (exists e, ParseRequests mixed_requests (NewRequestParser "requests.txt") = Err e)
  /\ parseRequestLine mixed_requests "GET http://a X:y:z" 1
     = Ok {| Method := "GET"; URL := "http://a";
             Header := map (header_pair mixed_requests) ["X:y:z"] |}.
Proof.
  destruct (ParseRequests_header_tokens mixed_requests) as [A B]. split.
  - destruct (A (NewRequestParser "requests.txt")
                ("GET http://a X:y:z" ++ nl ++ "# note" ++ nl ++ "post http://b Xy")
                None 2 "post http://b Xy" "Xy")
      as (j & tj & e & _ & _ & _ & _ & He & _).
    + discriminate.
    + reflexivity.
    + reflexivity.
    + reflexivity.
    + simpl. auto.
    + reflexivity.
    + exists e. exact He.
  - apply (B "GET http://a X:y:z" 1 "GET" "http://a" ["X:y:z"]).
    + reflexivity.
    + reflexivity.
    + reflexivity.
    + repeat constructor.
Defined.

(* ------------------------------------------------------------------ *)
(** ** C9 and C10: the descriptor and the locator *)

Lemma find_first {A : Type} (f : A -> bool) (l : list A) (x : A) :
  find f l = Some x ->
  exists l1 l2, l = (l1 ++ x :: l2)%list /\ f x = true
                /\ Forall (fun q => f q = false) l1.
Proof.
  induction l as [|a l IH]; simpl; intro H; [discriminate|].
  destruct (f a) eqn:Fa.
  - injection H as ->. exists [], l. repeat split; [assumption|constructor].
  - destruct (IH H) as [l1 [l2 [-> [Fx Hall]]]].
    exists (a :: l1), l2. repeat split; [assumption|].
    now constructor.
Qed.

Lemma find_missing {A : Type} (f : A -> bool) (l : list A) :
  (forall q, In q l -> f q = false) -> find f l = None.
Proof.
  induction l as [|a l IH]; simpl; intro H; [reflexivity|].
  rewrite (H a (or_introl eq_refl)). apply IH. intros q Hq. apply H. now right.
Qed.

Lemma find_present {A : Type} (f : A -> bool) (l : list A) (q : A) :
  In q l -> f q = true -> exists x, find f l = Some x.
Proof.
  induction l as [|a l IH]; simpl; intros Hin Hq; [contradiction|].
  destruct (f a) eqn:Fa; [now exists a|].
  destruct Hin as [->|Hin]; [congruence|]. now apply IH.
Qed.

(** C9: [findBrowserPath] returns the override when it is set and exists;
    otherwise the first candidate, in list order, that exists; and fails
    with the not-found error when no candidate exists.  [NewBrowser] builds
    the candidate list once, the override, if any, before the candidates of
    the kind. *)
Theorem findBrowserPath_resolves (env : Env) (b : Browser) (w : World) :
  (Path b <> "" -> os_Stat env (Path b) = true ->
   findBrowserPath env b w = (Ok (Path b), w))
  /\
  (Path b = "" \/ os_Stat env (Path b) = false ->
   (forall path, fst (findBrowserPath env b w) = Ok path ->
      exists l1 l2, browsers b = (l1 ++ path :: l2)%list
                    /\ os_Stat env path = true
                    /\ Forall (fun q => os_Stat env q = false) l1)
   /\ ((exists q, In q (browsers b) /\ os_Stat env q = true) ->
       exists path, fst (findBrowserPath env b w) = Ok path)
   /\ ((forall q, In q (browsers b) -> os_Stat env q = false) ->
       fst (findBrowserPath env b w) = Err ErrNotFound))
  /\
  (forall bt cp w0,
     Path (fst (NewBrowser bt cp w0)) = cp
     /\ browsers (fst (NewBrowser bt cp w0))
        = if cp =? "" then browsers (fst (NewBrowser bt "" w0))
          else cp :: browsers (fst (NewBrowser bt "" w0))).
Proof.
  split; [|split].
  - intros Hp Hs. unfold findBrowserPath.
    destruct (String.eqb_spec (Path b) ""); [contradiction|].
    now rewrite Hs.
  - intro Hno.
    assert (negb (Path b =? "") && os_Stat env (Path b) = false) as G.
    { destruct Hno as [-> | ->]; [reflexivity|apply andb_false_r]. }
    unfold findBrowserPath. rewrite G. clear G.
    set (w1 := if negb (Path b =? "") then _ else w).
    split; [|split].
    + intros path H.
      destruct (find (os_Stat env) (browsers b)) as [x|] eqn:F; simpl in H;
        [|discriminate].
      injection H as ->. apply (find_first _ _ _ F).
    + intros (q & Hin & Hq).
      destruct (find_present (os_Stat env) (browsers b) q Hin Hq) as [x ->].
      now exists x.
    + intro Hall. now rewrite (find_missing _ _ Hall).
  - intros bt cp w0. unfold NewBrowser, initBrowserPaths. cbn.
    split; [reflexivity|].
    destruct (cp =? ""); reflexivity.
Qed.

Lemma findBrowserPath_resolves_witness :
  findBrowserPath only_custom custom_chrome world0 = (Ok "/opt/chrome", world0)
  /\ fst (findBrowserPath (example_env "" false (fun _ => None)) custom_chrome world0)
     = Err ErrNotFound.
Proof.
  split.
  - apply (findBrowserPath_resolves only_custom custom_chrome world0).
    + discriminate.
    + reflexivity.
  - apply (findBrowserPath_resolves (example_env "" false (fun _ => None))
             custom_chrome world0).
    + right. reflexivity.
    + intros q _. reflexivity.
Defined.

(** C10: for a browser-type string other than [chrome], [chromium] and
    [firefox], [NewBrowser] returns a descriptor all the same: it prints the
    warning, takes the kind to be Chrome, and builds the Chrome candidate
    list (after the override, if any) -- the descriptor that [chrome] itself
    gives. *)
Theorem NewBrowser_unknown_kind (browserType customPath : string) (w : World) :
  browserType <> "chrome" -> browserType <> "chromium" -> browserType <> "firefox" ->
  NewBrowser browserType customPath w
  = ({| Type_ := Chrome; Path := customPath;
        browsers := if customPath =? "" then chrome_paths
                    else customPath :: chrome_paths |},
     emit w [Printf ErrorColor ("Unsupported browser type: " ++ browserType
                                ++ ". Using Chrome as default.")])
  /\ fst (NewBrowser browserType customPath w) = fst (NewBrowser "chrome" customPath w).
Proof.
  intros H1 H2 H3.
  apply String.eqb_neq in H1, H2, H3.
  assert (NewBrowser browserType customPath w
          = (initBrowserPaths {| Type_ := Chrome; Path := customPath; browsers := [] |},
             emit w [Printf ErrorColor ("Unsupported browser type: " ++ browserType
                                        ++ ". Using Chrome as default.")])) as E.
  { unfold NewBrowser, Chrome, Chromium, Firefox. now rewrite H1, H2, H3. }
  rewrite E. split.
  - f_equal. unfold initBrowserPaths. cbn [Type_ Path browsers].
    change (Chrome =? Chrome) with true. cbv iota.
    now destruct (customPath =? "").
  - reflexivity.
Qed.

Lemma NewBrowser_unknown_kind_witness :
  fst (NewBrowser "opera" "" world0)
  = {| Type_ := Chrome; Path := ""; browsers := chrome_paths |}.
Proof.
  pose proof (NewBrowser_unknown_kind "opera" "" world0) as H.
  destruct H as [H _]; [discriminate..|].
  rewrite H. reflexivity.
Defined.

(* ------------------------------------------------------------------ *)
(** ** C6: the Firefox kind *)

(** C6, as stated, fails: on a machine without a Firefox executable the
    error of [CreateContext] is the not-found one, raised by the path lookup
    that comes first, and not the Firefox one. *)
Lemma CreateContext_firefox_not_found :
  Type_ firefox = Firefox
  /\ fst (CreateContext (example_env "" false (fun _ => None)) firefox world0)
     = Err (Errorf_w "browser not found: " ErrNotFound)
  /\ fst (CreateContext (example_env "" false (fun _ => None)) firefox world0)
     <> Err ErrFirefox.
Proof.
  split; [reflexivity|].
  split; vm_compute; [reflexivity | discriminate].
Qed.

(** C6, amended: for the Firefox kind [CreateContext] always fails and never
    starts an engine.  The error is the Firefox one when the locator finds
    an executable, and the not-found error (wrapped, after the installation
    help is printed) when it finds none. *)
Theorem CreateContext_firefox (env : Env) (b : Browser) (w : World) :
  Type_ b = Firefox ->
  launched (snd (CreateContext env b w)) = launched w
  /\ created (snd (CreateContext env b w)) = S (created w)
  /\ (exists es, trace (snd (CreateContext env b w)) = (trace w ++ es)%list
                 /\ existsb is_launch es = false)
  /\ match fst (findBrowserPath env b (count_created w)) with
     | Ok _ => fst (CreateContext env b w) = Err ErrFirefox
     | Err err =>
       fst (CreateContext env b w) = Err (Errorf_w "browser not found: " err)
       /\ err = ErrNotFound
     end.
Proof.
  intro HT. unfold CreateContext.
  assert (findBrowserPath env b (count_created w)
          = (fst (findBrowserPath env b (count_created w)),
             snd (findBrowserPath env b (count_created w)))) as E
    by apply surjective_pairing.
  assert (launched (snd (findBrowserPath env b (count_created w))) = launched w
          /\ created (snd (findBrowserPath env b (count_created w))) = S (created w)
          /\ exists es, trace (snd (findBrowserPath env b (count_created w)))
                        = (trace w ++ es)%list /\ existsb is_launch es = false
          /\ forall err, fst (findBrowserPath env b (count_created w)) = Err err ->
                         err = ErrNotFound) as (HL & HC & es & HT' & HE & HN).
  { unfold findBrowserPath.
    destruct (negb (Path b =? "") && os_Stat env (Path b)).
    - repeat split. exists []. cbn. rewrite app_nil_r. repeat split. discriminate.
    - destruct (negb (Path b =? ""));
        destruct (find (os_Stat env) (browsers b)); cbn;
        repeat split;
        solve [ exists []; rewrite app_nil_r; repeat split; congruence
              | eexists; repeat split; congruence ]. }
  rewrite E.
  destruct (fst (findBrowserPath env b (count_created w))) as [path|err].
  - rewrite HT. change (Firefox =? Chrome) with false.
    change (Firefox =? Chromium) with false.
    change (Firefox =? Firefox) with true. cbn [orb fst snd].
    repeat split; try assumption. exists es. now split.
  - cbn [fst snd emit launched created trace].
    repeat split; try assumption.
    + exists (es ++ [InstallationHelp (Type_ b)])%list. rewrite HT', app_assoc.
      split; [reflexivity|]. rewrite existsb_app, HE. reflexivity.
    + now apply HN.
Qed.

Lemma CreateContext_firefox_witness :
  launched (snd (CreateContext firefox_installed firefox world0)) = 0
  /\ fst (CreateContext firefox_installed firefox world0) = Err ErrFirefox.
Proof.
  destruct (CreateContext_firefox firefox_installed firefox world0 eq_refl)
    as (HL & _ & _ & HR).
  split; [exact HL | exact HR].
Defined.

(* ------------------------------------------------------------------ *)
(** ** One [CreateContext] call and the loop of [Initialize] *)

Lemma findBrowserPath_fst (env : Env) (b : Browser) (w : World) :
  fst (findBrowserPath env b w) = fst (findBrowserPath env b world0).
Proof.
  unfold findBrowserPath.
  destruct (negb (Path b =? "") && os_Stat env (Path b)); [reflexivity|].
  destruct (find (os_Stat env) (browsers b)); reflexivity.
Qed.

Lemma findBrowserPath_counts (env : Env) (b : Browser) (w : World) :
  created (snd (findBrowserPath env b w)) = created w
  /\ launched (snd (findBrowserPath env b w)) = launched w
  /\ selects (snd (findBrowserPath env b w)) = selects w.
Proof.
  unfold findBrowserPath.
  destruct (negb (Path b =? "") && os_Stat env (Path b)); [auto|].
  destruct (negb (Path b =? "")); destruct (find (os_Stat env) (browsers b));
    cbn; auto.
Qed.

(** The result and the counters of one call. *)
Lemma CreateContext_result (env : Env) (b : Browser) (w : World) :
  created (snd (CreateContext env b w)) = S (created w)
  /\ selects (snd (CreateContext env b w)) = selects w
  /\ if launchable env b then
       launched (snd (CreateContext env b w)) = S (launched w)
       /\ if start_ok env (launched w)
          then fst (CreateContext env b w) = Ok (launched w)
          else is_ok (fst (CreateContext env b w)) = false
     else
       launched (snd (CreateContext env b w)) = launched w
       /\ is_ok (fst (CreateContext env b w)) = false.
Proof.
  unfold CreateContext, launchable.
  rewrite <- (findBrowserPath_fst env b (count_created w)).
  destruct (findBrowserPath_counts env b (count_created w)) as (HC & HL & HS).
  destruct (findBrowserPath env b (count_created w)) as [r w1].
  cbn [fst snd] in *. cbn [count_created created launched selects] in *.
  destruct r as [path|err]; cbn [is_ok andb].
  - destruct ((Type_ b =? Chrome) || (Type_ b =? Chromium)).
    + unfold start_ok. rewrite <- HL.
      destruct (chromedp_Run env (launched w1)); cbn; auto.
    + destruct (Type_ b =? Firefox); cbn; auto.
  - cbn. auto.
Qed.

Lemma successes_step (env : Env) (b : Browser) (from n : nat) :
  successes env b from (S n)
  = if launchable env b then
      ((if start_ok env from then [from] else []) ++ successes env b (S from) n)%list
    else [].
Proof.
  unfold successes. destruct (launchable env b); [|reflexivity].
  cbn [seq filter]. destruct (start_ok env from); reflexivity.
Qed.

Lemma successes_bound (env : Env) (b : Browser) (from n : nat) :
  List.length (successes env b from n) <= n.
Proof.
  unfold successes. destruct (launchable env b); [|simpl; lia].
  pose proof (filter_length_le (start_ok env) (seq from n)) as L.
  now rewrite length_seq in L.
Qed.

Lemma successes_NoDup (env : Env) (b : Browser) (from n : nat) :
  NoDup (successes env b from n).
Proof.
  unfold successes. destruct (launchable env b); [|constructor].
  apply NoDup_filter, seq_NoDup.
Qed.

Lemma successes_all (env : Env) (b : Browser) (from n : nat) :
  1 <= n -> List.length (successes env b from n) = n ->
  successes env b from n = seq from n.
Proof.
  unfold successes. intros Hn H. destruct (launchable env b).
  - revert from H. clear Hn. induction n as [|n IH]; intros from H; [reflexivity|].
    cbn [seq filter] in *. destruct (start_ok env from).
    + simpl in H. f_equal. apply IH. lia.
    + pose proof (filter_length_le (start_ok env) (seq (S from) n)) as L.
      rewrite length_seq in L. lia.
  - simpl in H. lia.
Qed.

(** With room for [n] more handles the loop returns: every call of
    [CreateContext] is made, the successful handles enter [cancelFuncs] and
    the channel in order, and each failure is counted. *)
Lemma init_loop_returns (env : Env) (n : nat) :
  forall i p w,
    List.length (pool p) + n <= maxWorkers p ->
    exists w',
      init_loop env n i p w
      = Returns (grown p (successes env (browser p) (launched w) n)
                         (n - List.length (successes env (browser p) (launched w) n)),
                 w')
      /\ created w' = created w + n
      /\ selects w' = selects w.
Proof.
  induction n as [|n IH]; intros i p w Hroom.
  - exists w. cbn [init_loop]. unfold successes, grown.
    destruct (launchable env (browser p)); cbn;
      rewrite !app_nil_r, Nat.add_0_r; destruct p; auto.
  - cbn [init_loop].
    destruct (CreateContext_result env (browser p) w) as (HC & HS & HR).
    rewrite (successes_step env (browser p) (launched w) n).
    destruct (CreateContext env (browser p) w) as [r w1]. cbn [fst snd] in *.
    assert (forall err, exists w',
      init_loop env n (S i) (set_initErrCount p (S (initErrCount p)))
        (if (initErrCount (set_initErrCount p (S (initErrCount p))) =? 1)%nat
         then emit w1 [Printf WarningColor
                         ("Error initializing browser worker: " ++ Error err
                          ++ String "010"%char "")]
         else w1)
      = Returns (grown (set_initErrCount p (S (initErrCount p)))
                   (successes env (browser p) (launched w1) n)
                   (n - List.length (successes env (browser p) (launched w1) n)),
                 w')
      /\ created w' = created w + S n /\ selects w' = selects w) as Hfail.
    { intro err.
      destruct (IH (S i) (set_initErrCount p (S (initErrCount p)))
                  (if (initErrCount (set_initErrCount p (S (initErrCount p))) =? 1)%nat
                   then emit w1 [Printf WarningColor
                                   ("Error initializing browser worker: " ++ Error err
                                    ++ String "010"%char "")]
                   else w1)) as (w' & E & C & Sel).
      { cbn. lia. }
      exists w'. cbn [browser set_initErrCount] in E.
      assert (forall (c : bool) es, launched (if c then emit w1 es else w1) = launched w1
                /\ created (if c then emit w1 es else w1) = created w1
                /\ selects (if c then emit w1 es else w1) = selects w1) as K
        by (intros [] es; cbn; auto).
      destruct (K (initErrCount (set_initErrCount p (S (initErrCount p))) =? 1)%nat
                  [Printf WarningColor
                     ("Error initializing browser worker: " ++ Error err
                      ++ String "010"%char "")]) as (K1 & K2 & K3).
      rewrite K1 in E. rewrite K2 in C. rewrite K3 in Sel.
      split; [exact E|]. split; lia. }
    pose proof (successes_bound env (browser p) (launched w1) n) as Bnd.
    destruct (launchable env (browser p)) eqn:La.
    + destruct HR as (HL & HR). destruct (start_ok env (launched w)) eqn:So.
      * subst r.
        match goal with
        | |- context [has_room ?P] => assert (has_room P = true) as Room
        end.
        { unfold has_room. cbn. apply Nat.ltb_lt. lia. }
        rewrite Room.
        match goal with
        | |- exists w', init_loop env n (S i) ?P ?W = _ /\ _ =>
          destruct (IH (S i) P W) as (w' & E & C & Sel)
        end.
        { cbn. rewrite length_app. simpl. lia. }
        exists w'. cbn [browser set_pool set_cancelFuncs emit launched created selects]
          in E, C, Sel.
        rewrite E, HL. split; [|split; lia].
        f_equal. f_equal. unfold grown. cbn -[Nat.sub Nat.add].
        rewrite <- !app_assoc. reflexivity.
      * destruct r as [h|err]; [discriminate|].
        destruct (Hfail err) as (w' & E & C & Sel). exists w'.
        rewrite E, HL. split; [|split; assumption].
        f_equal. f_equal. unfold grown. cbn -[Nat.sub Nat.add]. f_equal.
        rewrite HL in Bnd. lia.
    + destruct HR as (HL & HR). destruct r as [h|err]; [discriminate|].
      destruct (Hfail err) as (w' & E & C & Sel). exists w'.
      rewrite E. split; [|split; assumption].
      unfold successes. rewrite La. f_equal. f_equal. unfold grown.
      cbn -[Nat.sub Nat.add]. f_equal. lia.
Qed.

(* ------------------------------------------------------------------ *)
(** ** C3: the outcome of [Initialize] *)

Lemma GetContext_ready (env : Env) (p : BrowserPool) (w : World) :
  ready p -> GetContext env p w = Returns (select_get env p w).
Proof.
  intros [Hi Hg]. unfold GetContext, GetContext_rest. now rewrite Hi, Hg.
Qed.

Lemma GetContexts_drain (env : Env) (l : list Handle) :
  forall p w,
    ready p -> ctx_done p = false -> pool p = l ->
    GetContexts env (List.length l) p w = Returns (map Ok l, set_pool p [], w).
Proof.
  induction l as [|h l IH]; intros p w R D P.
  - cbn. destruct p; cbn in *; now subst.
  - cbn [List.length GetContexts]. rewrite (GetContext_ready env p w R).
    unfold select_get. rewrite P, D.
    rewrite (IH (set_pool p l) w); [reflexivity | exact R | exact D | reflexivity].
Qed.

Lemma Initialize_clean (env : Env) (p : BrowserPool) (w : World) :
  pool p = [] -> cancelFuncs p = [] ->
  initializing p = false -> initialized p = false ->
  exists w',
    Initialize env p w
    = Returns (if (0 <? List.length (successes env (browser p) (launched w) (maxWorkers p)))%nat
               then None else Some ErrInit,
               initialised p (successes env (browser p) (launched w) (maxWorkers p)),
               w')
    /\ created w' = created w + maxWorkers p
    /\ selects w' = selects w.
Proof.
  intros HP HC Hg Hi.
  unfold Initialize. rewrite Hg, Hi. cbn [orb].
  match goal with
  | |- context [init_loop env ?n ?i ?P ?W] =>
    destruct (init_loop_returns env n i P W) as (w' & E & C & Sel)
  end.
  { cbn. rewrite HP. simpl. lia. }
  cbn [maxWorkers browser set_initialization set_initializing emit launched
       created selects] in E, C, Sel.
  cbn [maxWorkers set_initialization set_initializing].
  rewrite E. clear E.
  set (good := successes env (browser p) (launched w) (maxWorkers p)).
  cbn [cancelFuncs grown set_initializing set_initialization]. rewrite HC.
  cbn [app].
  destruct (0 <? List.length good)%nat eqn:K.
  - match goal with
    | |- exists x, Returns (_, _, ?W) = _ /\ _ => exists W
    end.
    split; [|split; [exact C|exact Sel]].
    f_equal. f_equal. unfold initialised, grown, set_initialized, set_initialization.
    cbn -[Nat.sub Nat.add Nat.ltb]. rewrite HP, HC, K. reflexivity.
  - match goal with
    | |- exists x, Returns (_, _, ?W) = _ /\ _ => exists W
    end.
    split; [|split; [exact C|exact Sel]].
    f_equal. f_equal. unfold initialised, grown, set_initialized, set_initialization.
    cbn -[Nat.sub Nat.add Nat.ltb]. rewrite HP, HC, K, Hi. reflexivity.
Qed.

(** C3, as stated, fails in one point: the error of a failed [Initialize]
    does not name the attempted count.  With two workers and no browser
    installed the message is the fixed text, which has no [2] in it. *)
Lemma Initialize_error_without_count :
  match Initialize (example_env "" false (fun _ => None))
                   (NewBrowserPool (fst (NewBrowser "chrome" "" world0)) 2) world0 with
  | Returns (Some e, p, w) =>
      created w = 2
      /\ Error e = "failed to initialize any browser workers"
      /\ Contains (Error e) (itoa 2) = false
  | _ => False
  end.
Proof. vm_compute. auto. Qed.

(** C3, amended: on a pool of capacity N >= 1 that holds no handle and is
    neither initialised nor initialising, [Initialize] returns after exactly
    N calls of [CreateContext].  The k handles of the calls that succeed are
    the content of the buffer and of the capability list, in order and
    without repetition, and the N-k failures are counted.  If k >= 1 the
    result is nil and the pool is initialised; if k = 0 the result is the
    error with the fixed text [failed to initialize any browser workers]
    (no count in it) and the pool stays uninitialised with an empty buffer.
    If k = N and the lifetime token is live, N calls of [GetContext] return
    the N distinct handles, after which the buffer is empty and one more
    call times out. *)
Theorem Initialize_outcome (env : Env) (p : BrowserPool) (w : World) :
  1 <= maxWorkers p ->
  pool p = [] -> cancelFuncs p = [] ->
  initializing p = false -> initialized p = false ->
  let good := successes env (browser p) (launched w) (maxWorkers p) in
  exists r p' w',
    Initialize env p w = Returns (r, p', w')
    /\ created w' = created w + maxWorkers p
    /\ pool p' = good /\ cancelFuncs p' = good /\ NoDup good
    /\ List.length good <= maxWorkers p
    /\ initErrCount p' = initErrCount p + (maxWorkers p - List.length good)
    /\ maxWorkers p' = maxWorkers p
    /\ initializing p' = false
    /\ (1 <= List.length good -> r = None /\ initialized p' = true)
    /\ (List.length good = 0 ->
        r = Some ErrInit /\ initialized p' = false /\ pool p' = []
        /\ Error ErrInit = "failed to initialize any browser workers")
    /\ (List.length good = maxWorkers p -> ctx_done p = false ->
        good = seq (launched w) (maxWorkers p)
        /\ GetContexts env (maxWorkers p) p' w'
           = Returns (map Ok good, set_pool p' [], w')
        /\ GetContext env (set_pool p' []) w'
           = Returns (Err ErrTimeout, set_pool p' [], w')).
Proof.
  intros HN HP HC Hg Hi good.
  destruct (Initialize_clean env p w HP HC Hg Hi) as (w' & E & C & _).
  fold good in E.
  pose proof (successes_bound env (browser p) (launched w) (maxWorkers p)) as Bnd.
  pose proof (successes_NoDup env (browser p) (launched w) (maxWorkers p)) as ND.
  fold good in Bnd, ND.
  eexists _, _, w'. split; [exact E|].
  cbn [initialised pool cancelFuncs initErrCount maxWorkers initializing initialized].
  split; [exact C|].
  do 7 (split; [solve [reflexivity | assumption]|]).
  split; [|split].
  - intro H. assert ((0 <? List.length good)%nat = true) as K
      by (apply Nat.ltb_lt; lia).
    rewrite K. split; reflexivity.
  - intro H. rewrite H. cbn. destruct good; [|discriminate].
    repeat split.
  - intros H D.
    assert ((0 <? List.length good)%nat = true) as K
      by (apply Nat.ltb_lt; lia).
    split; [|split].
    + apply (successes_all env (browser p) (launched w) (maxWorkers p) HN H).
    + rewrite <- H.
      apply (GetContexts_drain env good (initialised p good) w').
      * split; [exact K | reflexivity].
      * exact D.
      * reflexivity.
    + rewrite (GetContext_ready env (set_pool (initialised p good) []) w').
      * unfold select_get. cbn [pool set_pool ctx_done initialised]. now rewrite D.
      * split; [exact K | reflexivity].
Qed.

Lemma Initialize_outcome_witness :
  exists r p' w',
    Initialize second_start_fails (NewBrowserPool chrome 3) world0
    = Returns (r, p', w')
    /\ pool p' = [0; 2] /\ r = None /\ initialized p' = true.
Proof.
  destruct (Initialize_outcome second_start_fails (NewBrowserPool chrome 3) world0)
    as (r & p' & w' & E & _ & HP & _ & _ & _ & _ & _ & _ & HR & _).
  - simpl. lia.
  - reflexivity.
  - reflexivity.
  - reflexivity.
  - reflexivity.
  - exists r, p', w'. split; [exact E|]. split; [exact HP|].
    apply HR. vm_compute. lia.
Defined.

(* ------------------------------------------------------------------ *)
(** ** C1: how often the creation sequence runs *)

(** C1, as stated, fails: after an [Initialize] that ended without a single
    worker, a second [Initialize] makes the two calls of [CreateContext]
    again. *)
Lemma Initialize_runs_again_after_failure :
  match Initialize no_browser (NewBrowserPool chrome 2) world0 with
  | Returns (Some _, p1, w1) =>
      initialized p1 = false /\ created w1 = 2
      /\ match Initialize no_browser p1 w1 with
         | Returns (Some _, _, w2) => created w2 = 4
         | _ => False
         end
  | _ => False
  end.
Proof. vm_compute. auto. Qed.

Lemma select_get_counts (env : Env) (p : BrowserPool) (w : World) :
  created (snd (select_get env p w)) = created w
  /\ initialized (snd (fst (select_get env p w))) = initialized p
  /\ initializing (snd (fst (select_get env p w))) = initializing p
  /\ cancelFuncs (snd (fst (select_get env p w))) = cancelFuncs p.
Proof.
  unfold select_get.
  destruct (pool p), (ctx_done p); try destruct (select_pick env (selects w));
    cbn; auto.
Qed.

(** [Initialize] leaves [initializing] unset whenever it returns from a pool
    on which no other initialisation is running. *)
Lemma Initialize_settles (env : Env) (p : BrowserPool) (w : World)
  (r : option error) (p1 : BrowserPool) (w1 : World) :
  initializing p = false ->
  Initialize env p w = Returns (r, p1, w1) ->
  initializing p1 = false
  /\ (initialized p1 = false -> initialized p = false /\ cancelFuncs p1 = []).
Proof.
  intros Hg H. unfold Initialize in H. rewrite Hg in H. cbn [orb] in H.
  destruct (initialized p) eqn:Hi.
  - injection H as <- <- <-. split; [exact Hg|]. congruence.
  - destruct (init_loop env _ _ _ _) as [[p' w']|]; [|discriminate].
    destruct (0 <? List.length (cancelFuncs (set_initializing p' false)))%nat eqn:K;
      injection H as <- <- <-; cbn; split; try reflexivity; try discriminate.
    intros _. split; [reflexivity|].
    cbn in K. destruct (cancelFuncs p'); [reflexivity|discriminate].
Qed.

(** C1, amended: once an [Initialize] has returned with the pool
    initialised, every later [Initialize] returns nil at once and every
    later [GetContext] goes straight to the buffer: neither calls
    [CreateContext], and the pool stays initialised with the same
    capabilities (until [Close]).  After an [Initialize] that ended with no
    worker the pool is not marked, and a later [Initialize] on it makes its
    N calls of [CreateContext] again. *)
Theorem Initialize_once_ready (env : Env) (p : BrowserPool) (w : World)
  (r : option error) (p1 : BrowserPool) (w1 : World) :
  initializing p = false ->
  Initialize env p w = Returns (r, p1, w1) ->
  (initialized p1 = true ->
   (forall w', Initialize env p1 w' = Returns (None, p1, w'))
   /\ (forall w', exists res p2 w2,
         GetContext env p1 w' = Returns (res, p2, w2)
         /\ created w2 = created w'
         /\ initialized p2 = true /\ initializing p2 = false
         /\ cancelFuncs p2 = cancelFuncs p1))
  /\
  (initialized p1 = false -> pool p = [] ->
   forall w', exists r2 p2 w2,
     Initialize env p1 w' = Returns (r2, p2, w2)
     /\ created w2 = created w' + maxWorkers p1).
Proof.
  intros Hg H.
  destruct (Initialize_settles env p w r p1 w1 Hg H) as [Hg1 Hfail].
  split.
  - intro Hi1. split.
    + intro w'. unfold Initialize. now rewrite Hg1, Hi1.
    + intro w'. rewrite (GetContext_ready env p1 w' (conj Hi1 Hg1)).
      destruct (select_get_counts env p1 w') as (C & I & G & F).
      destruct (select_get env p1 w') as [[res p2] w2]. cbn [fst snd] in *.
      exists res, p2, w2. repeat split; congruence.
  - intros Hi1 HP w'. destruct (Hfail Hi1) as [Hi HC1].
    assert (pool p1 = []) as HP1.
    { unfold Initialize in H. rewrite Hg, Hi in H. cbn [orb] in H.
      match type of H with
      | context [init_loop env ?n ?i ?P ?W] =>
        destruct (init_loop_returns env n i P W) as (wx & E & _)
      end.
      { cbn. rewrite HP. simpl. lia. }
      rewrite E in H.
      match type of H with
      | context [grown ?P ?G ?K] => set (good := G) in *; set (q := grown P G K) in *
      end.
      assert (cancelFuncs p1 = cancelFuncs q /\ pool p1 = pool q) as [A B].
      { destruct (0 <? _)%nat in H; injection H as <- <- <-; split; reflexivity. }
      rewrite A in HC1. subst q. cbn in HC1, B.
      apply app_eq_nil in HC1 as [_ HG]. rewrite B, HP, HG. reflexivity. }
    destruct (Initialize_clean env p1 w' HP1 HC1 Hg1 Hi1) as (w2 & E & C & _).
    eexists _, _, w2. split; [exact E | exact C].
Qed.

Lemma Initialize_once_ready_witness :
  exists p1 w1,
    Initialize second_start_fails (NewBrowserPool chrome 3) world0
    = Returns (None, p1, w1)
    /\ Initialize second_start_fails p1 w1 = Returns (None, p1, w1).
Proof.
  eexists _, _. split.
  - vm_compute. reflexivity.
  - refine (proj1 (proj1 (Initialize_once_ready second_start_fails
                            (NewBrowserPool chrome 3) world0 None _ _ eq_refl _) _) _).
    + vm_compute. reflexivity.
    + reflexivity.
Defined.

(* ------------------------------------------------------------------ *)
(** ** C2: [GetContext] on a pool whose initialisation failed *)

(** A call of [GetContext] on a pool that is neither initialised nor
    initialising and holds no handle runs [Initialize] again.  It returns
    the initialisation error when no engine starts, and otherwise serves
    from the buffer of the pool it has just initialised; the branch that
    makes a one-time context is not reached. *)
Lemma GetContext_uninitialised (env : Env) (p : BrowserPool) (w : World) :
  pool p = [] -> cancelFuncs p = [] ->
  initializing p = false -> initialized p = false ->
  exists res p2 w2,
    GetContext env p w = Returns (res, p2, w2)
    /\ created w2 = created w + maxWorkers p
    /\ if (0 <? List.length (successes env (browser p) (launched w) (maxWorkers p)))%nat
       then initialized p2 = true
            /\ (forall h, res = Ok h ->
                  In h (successes env (browser p) (launched w) (maxWorkers p)))
       else res = Err ErrInit /\ initialized p2 = false.
Proof.
  intros HP HC Hg Hi.
  destruct (Initialize_clean env p w HP HC Hg Hi) as (w' & E & C & _).
  unfold GetContext. rewrite Hi, Hg. cbn [negb andb]. rewrite E.
  set (good := successes env (browser p) (launched w) (maxWorkers p)).
  destruct (0 <? List.length good)%nat eqn:K.
  - unfold GetContext_rest.
    change (initializing (initialised p good)) with false.
    change (initialized (initialised p good)) with (0 <? List.length good)%nat.
    rewrite K. cbn [negb andb].
    destruct (select_get_counts env (initialised p good) w') as (C' & I & _ & _).
    assert (forall h, fst (fst (select_get env (initialised p good) w')) = Ok h ->
                      In h good) as Hin.
    { unfold select_get. cbn [pool initialised ctx_done].
      destruct good as [|g good'], (ctx_done p);
        try destruct (select_pick env (selects w'));
        cbn; intros h Hh; try discriminate; injection Hh as <-; now left. }
    destruct (select_get env (initialised p good) w') as [[res p2] w2].
    cbn [fst snd] in *. exists res, p2, w2.
    split; [reflexivity|]. split; [congruence|].
    split; [now rewrite I | exact Hin].
  - eexists _, _, _. split; [reflexivity|]. split; [exact C|].
    split; [reflexivity|].
    change (initialized (initialised p good)) with (0 <? List.length good)%nat.
    exact K.
Qed.

(** C2 against the code, at the failing inputs.  After a failed
    [Initialize] of a two-worker pool, five calls of [GetContext] in a row:
    (1) when the next two engine starts fail as well and the one after them
    would succeed, the first call returns the initialisation error of its
    own second [Initialize] instead of making the one-time context; (2) when
    the engine starts again at once, the calls give the two handles of a
    pool that the first call has initialised anew, then three time-outs;
    (3) when no engine ever starts, each call returns the initialisation
    error after two more calls of [CreateContext].  In no run is the
    one-time context made. *)
Theorem GetContext_after_failed_Initialize :
  match Initialize recovers_after_four (NewBrowserPool chrome 2) world0 with
  | Returns (Some _, p1, w1) =>
      initialized p1 = false /\ pool p1 = []
      /\ match GetContext recovers_after_four p1 w1 with
         | Returns (r, p2, w2) =>
             r = Err ErrInit /\ initialized p2 = false /\ created w2 = 4
             /\ launched w2 = 4 /\ chromedp_Run recovers_after_four 4 = None
             /\ existsb is_one_time_warning (trace w2) = false
         | Blocks => False
         end
      /\ match GetContexts recovers_after_four 5 p1 w1 with
         | Returns (rs, p2, w2) =>
             rs = [Err ErrInit; Ok 4; Ok 5; Err ErrTimeout; Err ErrTimeout]
             /\ existsb is_one_time_warning (trace w2) = false
         | Blocks => False
         end
  | _ => False
  end
  /\
  match Initialize recovers_after_two (NewBrowserPool chrome 2) world0 with
  | Returns (Some _, p1, w1) =>
      initialized p1 = false /\ pool p1 = []
      /\ match GetContexts recovers_after_two 5 p1 w1 with
         | Returns (rs, p2, w2) =>
             rs = [Ok 2; Ok 3; Err ErrTimeout; Err ErrTimeout; Err ErrTimeout]
             /\ initialized p2 = true /\ cancelFuncs p2 = [2; 3]
             /\ created w2 = 4
             /\ existsb is_one_time_warning (trace w2) = false
         | Blocks => False
         end
  | _ => False
  end
  /\
  match Initialize never_starts (NewBrowserPool chrome 2) world0 with
  | Returns (Some _, p1, w1) =>
      initialized p1 = false /\ pool p1 = []
      /\ match GetContexts never_starts 5 p1 w1 with
         | Returns (rs, p2, w2) =>
             rs = [Err ErrInit; Err ErrInit; Err ErrInit; Err ErrInit; Err ErrInit]
             /\ initialized p2 = false
             /\ created w2 = 12
             /\ existsb is_one_time_warning (trace w2) = false
         | Blocks => False
         end
  | _ => False
  end.
Proof. split; [|split]; vm_compute; repeat split; reflexivity. Qed.

(* ------------------------------------------------------------------ *)
(** ** C4: acquire and release on a ready pool *)

(** C4: on a ready pool, a handle that [GetContext] has returned and that is
    passed to [ReleaseContext] while the channel has room and the lifetime
    token is live is appended to the buffer, which then has the size it had
    before the acquire; the next [GetContext] returns a handle of that
    buffer. *)
Theorem GetContext_ReleaseContext_roundtrip (env : Env) (p : BrowserPool)
  (w : World) (h : Handle) (p1 : BrowserPool) (w1 : World) :
  ready p ->
  GetContext env p w = Returns (Ok h, p1, w1) ->
  has_room p1 = true -> ctx_done p1 = false ->
  pool p = h :: pool p1
  /\ ReleaseContext env p1 h w1 = (set_pool p1 (pool p1 ++ [h]), w1)
  /\ In h (pool (fst (ReleaseContext env p1 h w1)))
  /\ List.length (pool (fst (ReleaseContext env p1 h w1))) = List.length (pool p)
  /\ exists h',
       GetContext env (fst (ReleaseContext env p1 h w1)) w1
       = Returns (Ok h', set_pool p1 (tl (pool p1 ++ [h])), w1)
       /\ In h' (pool (fst (ReleaseContext env p1 h w1))).
Proof.
  intros R G Room D.
  rewrite (GetContext_ready env p w R) in G. unfold select_get in G.
  assert (pool p = h :: pool p1 /\ ready p1) as [HP R1].
  { destruct (pool p) as [|x rest] eqn:P; destruct (ctx_done p) eqn:Dp.
    - discriminate G.
    - discriminate G.
    - destruct (select_pick env (selects w)); [|discriminate G].
      injection G as ? ? ?; subst. cbn in D. congruence.
    - injection G as ? ? ?; subst. split; [reflexivity | exact R]. }
  assert (ReleaseContext env p1 h w1 = (set_pool p1 (pool p1 ++ [h]), w1)) as E.
  { unfold ReleaseContext. destruct R1 as [Ri _]. now rewrite Ri, Room, D. }
  rewrite E. cbn [fst pool set_pool].
  split; [exact HP|]. split; [reflexivity|].
  split; [apply in_or_app; right; now left|].
  split; [rewrite HP, length_app; simpl; lia|].
  assert (ready (set_pool p1 (pool p1 ++ [h]))) as R2 by exact R1.
  rewrite (GetContext_ready env _ w1 R2). unfold select_get.
  cbn [pool set_pool ctx_done]. rewrite D.
  destruct (pool p1 ++ [h])%list as [|x rest] eqn:Q.
  - destruct (pool p1); discriminate.
  - exists x. split; [reflexivity | now left].
Qed.

Lemma GetContext_ReleaseContext_roundtrip_witness :
  GetContext always_starts ready_pair world0
  = Returns (Ok 0, set_pool ready_pair [1], world0)
  /\ ReleaseContext always_starts (set_pool ready_pair [1]) 0 world0
     = (set_pool ready_pair [1; 0], world0)
  /\ exists h',
       GetContext always_starts
         (fst (ReleaseContext always_starts (set_pool ready_pair [1]) 0 world0)) world0
       = Returns (Ok h', set_pool ready_pair [0], world0).
Proof.
  assert (GetContext always_starts ready_pair world0
          = Returns (Ok 0, set_pool ready_pair [1], world0)) as G by reflexivity.
  split; [exact G|].
  destruct (GetContext_ReleaseContext_roundtrip always_starts ready_pair world0 0
              (set_pool ready_pair [1]) world0
              (conj eq_refl eq_refl) G eq_refl eq_refl)
    as (_ & E & _ & _ & h' & Hg & _).
  split; [exact E|]. exists h'. exact Hg.
Defined.

(* ------------------------------------------------------------------ *)
(** ** C5: [Close] *)

(** C5, as stated, fails in one point: [Close] does not empty the handle
    buffer.  A one-worker pool that is initialised and then closed still
    holds its handle in the channel. *)
Lemma Close_keeps_buffer :
  match Initialize always_starts (NewBrowserPool chrome 1) world0 with
  | Returns (None, p, w) =>
      pool p = [0] /\ pool (fst (Close p w)) = [0]
      /\ cancelFuncs (fst (Close p w)) = []
  | _ => False
  end.
Proof. vm_compute. auto. Qed.

Lemma released_map_other (id : Handle) (l : list Handle) :
  ~ In id l -> released id (map CancelSession l) = 0.
Proof.
  unfold released. induction l as [|x l IH]; intro H; [reflexivity|].
  cbn [map filter is_release].
  destruct (Nat.eqb_spec x id) as [->|N].
  - elim H. now left.
  - apply IH. intro Hin. apply H. now right.
Qed.

Lemma released_map_NoDup (id : Handle) (l : list Handle) :
  NoDup l -> In id l -> released id (map CancelSession l) = 1.
Proof.
  unfold released. induction l as [|x l IH]; intros ND Hin; [contradiction|].
  inversion ND as [|? ? Hx ND']; subst.
  cbn [map filter is_release].
  destruct (Nat.eqb_spec x id) as [->|N].
  - cbn [List.length]. f_equal. apply (released_map_other id l Hx).
  - destruct Hin as [->|Hin]; [congruence|]. now apply IH.
Qed.

Lemma since_emit (w : World) (es : list Event) : since w (emit w es) = es.
Proof.
  unfold since, emit. cbn [trace].
  rewrite skipn_app, Nat.sub_diag, skipn_all. reflexivity.
Qed.

(** C5, amended: [Close] cancels the lifetime token, calls every stored
    release capability, in list order, empties the capability list and
    marks the pool uninitialised; it leaves the handle buffer as it is.  A
    second [Close] changes nothing in the pool and calls no capability, so
    that over both calls each capability of a list without repetition is
    called exactly once. *)
Theorem Close_releases_once (p : BrowserPool) (w : World) :
  ctx_done (fst (Close p w)) = true
  /\ cancelFuncs (fst (Close p w)) = []
  /\ initialized (fst (Close p w)) = false
  /\ pool (fst (Close p w)) = pool p
  /\ since w (snd (Close p w))
     = ([CancelPool; Sleep100ms] ++ map CancelSession (cancelFuncs p))%list
  /\ fst (Close (fst (Close p w)) (snd (Close p w))) = fst (Close p w)
  /\ since (snd (Close p w)) (snd (Close (fst (Close p w)) (snd (Close p w))))
     = [CancelPool; Sleep100ms]
  /\ (forall id,
        released id (since (snd (Close p w))
                       (snd (Close (fst (Close p w)) (snd (Close p w))))) = 0)
  /\ (NoDup (cancelFuncs p) ->
      forall id, In id (cancelFuncs p) ->
        released id (since w (snd (Close (fst (Close p w)) (snd (Close p w))))) = 1).
Proof.
  assert (forall q v, snd (Close q v)
            = emit v ([CancelPool; Sleep100ms] ++ map CancelSession (cancelFuncs q))%list)
    as Hsnd.
  { intros q v. unfold Close, emit. cbn. rewrite <- !app_assoc. reflexivity. }
  assert (cancelFuncs (fst (Close p w)) = []) as Hcf by reflexivity.
  repeat split; try reflexivity.
  - rewrite Hsnd. apply since_emit.
  - rewrite (Hsnd (fst (Close p w))), Hcf. apply since_emit.
  - intro id. rewrite (Hsnd (fst (Close p w))), Hcf, since_emit. reflexivity.
  - intros ND id Hin.
    rewrite (Hsnd (fst (Close p w))), Hcf, Hsnd.
    assert (forall es es', emit (emit w es) es' = emit w (es ++ es')%list) as Hee.
    { intros es es'. unfold emit. cbn. now rewrite app_assoc. }
    rewrite Hee, since_emit. unfold released.
    rewrite !filter_app, !length_app. cbn [filter is_release List.length map app].
    fold (released id (map CancelSession (cancelFuncs p))).
    rewrite (released_map_NoDup id (cancelFuncs p) ND Hin). reflexivity.
Qed.

Lemma Close_releases_once_witness :
  released 0 (since world0
                (snd (Close (fst (Close ready_pair world0))
                            (snd (Close ready_pair world0))))) = 1.
Proof.
  refine (proj2 (proj2 (proj2 (proj2 (proj2 (proj2 (proj2 (proj2
            (Close_releases_once ready_pair world0)))))))) _ 0 _).
  - repeat constructor; simpl; intuition discriminate.
  - simpl. auto.
Defined.

(* ------------------------------------------------------------------ *)
(** ** White space at the ends of a trimmed string *)

Lemma srev_append (a b : string) : srev (a ++ b) = srev b ++ srev a.
Proof.
  induction a as [|c a IH]; simpl.
  - induction (srev b) as [|x r IHr]; simpl; [reflexivity | now rewrite <- IHr].
  - now rewrite IH, append_assoc.
Qed.

Lemma srev_involutive (s : string) : srev (srev s) = s.
Proof.
  induction s as [|c s IH]; simpl; [reflexivity|].
  now rewrite srev_append, IH.
Qed.

Lemma append_nil_r (s : string) : s ++ "" = s.
Proof. induction s as [|c s IH]; simpl; [reflexivity | now rewrite IH]. Qed.

(** What [strip] returns is empty or does not start with a rune of [width],
    and it is what is left of the input after a prefix. *)
Lemma strip_head (width : string -> nat) (s : string) :
  forall skip, strip width s skip = "" \/ width (strip width s skip) = 0.
Proof.
  induction s as [|c s IH]; intro skip; cbn [strip]; [now left|].
  destruct skip as [|k]; [|apply IH].
  destruct (width (String c s)) eqn:W; [now right | apply IH].
Qed.

Lemma strip_suffix (width : string -> nat) (s : string) :
  forall skip, exists pre, s = pre ++ strip width s skip.
Proof.
  induction s as [|c s IH]; intro skip; cbn [strip]; [now exists ""|].
  destruct skip as [|k].
  - destruct (width (String c s)).
    + now exists "".
    + destruct (IH n) as [pre E]. exists (String c pre). simpl. now rewrite <- E.
  - destruct (IH k) as [pre E]. exists (String c pre). simpl. now rewrite <- E.
Qed.

Lemma strip_fixed (width : string -> nat) (s : string) :
  s = "" \/ width s = 0 -> strip width s 0 = s.
Proof.
  intros [->|W]; [reflexivity|].
  destruct s as [|c s]; [reflexivity|]. cbn [strip]. now rewrite W.
Qed.

(** A white-space rune at the head of a prefix is one at the head of the
    whole string. *)
Lemma space_width_prefix (u x : string) :
  space_width u <> 0 -> space_width (u ++ x) = space_width u.
Proof.
  destruct u as [|c0 [|c1 [|c2 u]]]; cbn [space_width append]; intro H.
  - now elim H.
  - destruct (asciiSpace c0); [reflexivity | now elim H].
  - destruct (asciiSpace c0); [reflexivity|].
    destruct ((byte c0 =? 194)%nat && ((byte c1 =? 133)%nat || (byte c1 =? 160)%nat));
      [reflexivity | now elim H].
  - reflexivity.
Qed.

Lemma TrimLeftSpace_head (s : string) :
  TrimLeftSpace s = "" \/ space_width (TrimLeftSpace s) = 0.
Proof. apply strip_head. Qed.

Lemma TrimRightSpace_prefix (t : string) : exists x, t = TrimRightSpace t ++ x.
Proof.
  unfold TrimRightSpace.
  destruct (strip_suffix space_width_rev (srev t) 0) as [pre E].
  exists (srev pre).
  rewrite <- srev_append, <- E. symmetry. apply srev_involutive.
Qed.

Lemma TrimRightSpace_tail (t : string) :
  TrimRightSpace t = "" \/ space_width_rev (srev (TrimRightSpace t)) = 0.
Proof.
  unfold TrimRightSpace. rewrite srev_involutive.
  destruct (strip_head space_width_rev (srev t) 0) as [E|E].
  - left. now rewrite E.
  - now right.
Qed.

(** [TrimSpace] returns a string without white space at either end. *)
Lemma TrimSpace_trimmed (s : string) : trimmed (TrimSpace s).
Proof.
  unfold TrimSpace, trimmed.
  destruct (TrimRightSpace_tail (TrimLeftSpace s)) as [E|E]; [now left|].
  right. split; [|exact E].
  destruct (TrimLeftSpace_head s) as [L|L].
  - rewrite L. reflexivity.
  - destruct (TrimRightSpace_prefix (TrimLeftSpace s)) as [x Hx].
    destruct (Nat.eq_dec (space_width (TrimRightSpace (TrimLeftSpace s))) 0)
      as [Z|NZ]; [exact Z|].
    rewrite <- (space_width_prefix _ x NZ), <- Hx. exact L.
Qed.

(** A string without white space at either end is left as it is. *)
Lemma TrimSpace_fixed (s : string) : trimmed s -> TrimSpace s = s.
Proof.
  intros [->|[L R]]; [reflexivity|].
  unfold TrimSpace, TrimLeftSpace, TrimRightSpace.
  rewrite (strip_fixed space_width s (or_intror L)).
  rewrite (strip_fixed space_width_rev (srev s) (or_intror R)).
  apply srev_involutive.
Qed.

Lemma TrimSpace_idempotent (s : string) : TrimSpace (TrimSpace s) = TrimSpace s.
Proof. apply TrimSpace_fixed, TrimSpace_trimmed. Qed.

(* ------------------------------------------------------------------ *)
(** ** [EnsureProtocol] *)

Lemma space_width_rev_scheme (r : string) :
  r <> "" -> space_width_rev r = 0 ->
  space_width_rev (r ++ srev "https://") = 0.
Proof.
  destruct r as [|c0 [|c1 [|c2 r]]]; intros N H.
  - now elim N.
  - cbn in H |- *. destruct (asciiSpace c0); [discriminate | reflexivity].
  - cbn in H |- *. destruct (asciiSpace c0); [discriminate|].
    destruct (asciiSpace c1); [reflexivity|].
    destruct ((byte c1 =? 194)%nat && ((byte c0 =? 133)%nat || (byte c0 =? 160)%nat));
      [discriminate | reflexivity].
  - exact H.
Qed.

Lemma scheme_trimmed (u : string) : trimmed u -> trimmed ("https://" ++ u).
Proof.
  intro T. right. split; [reflexivity|].
  rewrite srev_append.
  destruct T as [->|[_ R]]; [reflexivity|].
  destruct u as [|c u]; [reflexivity|].
  apply space_width_rev_scheme; [|exact R].
  simpl. destruct (srev u); discriminate.
Qed.

(** X1. The link that [EnsureProtocol] returns always starts with
    [http://] or [https://]: it is the trimmed input when that already has
    one of the two, and [https://] followed by the trimmed input otherwise.
    The result has no white space at either end, and applying
    [EnsureProtocol] to it changes nothing. *)
Theorem EnsureProtocol_protocol (link : string) :
  has_protocol (EnsureProtocol link) = true
  /\ EnsureProtocol link
     = (if has_protocol (TrimSpace link) then TrimSpace link
        else "https://" ++ TrimSpace link)
  /\ trimmed (EnsureProtocol link)
  /\ EnsureProtocol (EnsureProtocol link) = EnsureProtocol link.
Proof.
  assert (EnsureProtocol link
          = (if has_protocol (TrimSpace link) then TrimSpace link
             else "https://" ++ TrimSpace link)) as E.
  { unfold EnsureProtocol, has_protocol.
    destruct (HasPrefix (TrimSpace link) "http://"),
             (HasPrefix (TrimSpace link) "https://"); reflexivity. }
  assert (has_protocol (EnsureProtocol link) = true) as P.
  { rewrite E. destruct (has_protocol (TrimSpace link)) eqn:H; [exact H|].
    unfold has_protocol. apply orb_true_iff. right.
    apply (HasPrefix_tag "https://" (TrimSpace link)). }
  assert (trimmed (EnsureProtocol link)) as T.
  { rewrite E. destruct (has_protocol (TrimSpace link)).
    - apply TrimSpace_trimmed.
    - apply scheme_trimmed, TrimSpace_trimmed. }
  split; [exact P|]. split; [exact E|]. split; [exact T|].
  clear E. set (v := EnsureProtocol link) in *.
  unfold EnsureProtocol. rewrite (TrimSpace_fixed v T).
  unfold has_protocol in P.
  destruct (HasPrefix v "http://"), (HasPrefix v "https://");
    try reflexivity; discriminate.
Qed.

(* ------------------------------------------------------------------ *)
(** ** [ProcessPayloadsAndHeaders] *)

Lemma scans_app (a b : list Action) : scans (a ++ b) = (scans a ++ scans b)%list.
Proof. apply flat_map_app. Qed.

Lemma scans_headers (link payload : string) (headers : list string) :
  scans (map (fun header => ScanCall link payload header) headers)
  = map (fun header => (link, payload, header)) headers.
Proof. induction headers as [|h hs IH]; simpl; [reflexivity | now rewrite IH]. Qed.

Lemma scans_no_headers (link : string) (payloads : list string) :
  scans (map (fun payload => ScanCall link payload "") payloads)
  = map (fun ph => (link, fst ph, snd ph)) (list_prod payloads [""]).
Proof.
  induction payloads as [|p ps IH]; [reflexivity|].
  change (map (fun payload => ScanCall link payload "") (p :: ps))
    with ([ScanCall link p ""]
          ++ map (fun payload => ScanCall link payload "") ps)%list.
  rewrite scans_app, IH. reflexivity.
Qed.

Lemma scans_with_headers (link : string) (payloads headers : list string) :
  scans (flat_map (fun payload =>
                     map (fun header => ScanCall link payload header) headers)
                  payloads)
  = map (fun ph => (link, fst ph, snd ph)) (list_prod payloads headers).
Proof.
  induction payloads as [|p ps IH]; [reflexivity|].
  cbn [flat_map list_prod]. rewrite scans_app, map_app, IH.
  rewrite scans_headers, map_map. reflexivity.
Qed.

(** X2. [ProcessPayloadsAndHeaders] scans every payload with every header
    exactly once, payload by payload in list order, always at the link
    completed by [EnsureProtocol]; without headers it scans each payload
    once with the empty header.  So it makes
    [len(payloads) * max(1, len(headers))] scans, and none when there is no
    payload. *)
Theorem ProcessPayloadsAndHeaders_scans (link : string)
  (payloads headers : list string) :
  scans (ProcessPayloadsAndHeaders link payloads headers)
  = map (fun ph => (EnsureProtocol link, fst ph, snd ph))
        (list_prod payloads (match headers with [] => [""] | _ => headers end))
  /\ List.length (scans (ProcessPayloadsAndHeaders link payloads headers))
     = List.length payloads * Nat.max 1 (List.length headers)
  /\ (forall payload header,
        In payload payloads -> In header headers ->
        In (EnsureProtocol link, payload, header)
           (scans (ProcessPayloadsAndHeaders link payloads headers)))
  /\ Forall (fun s => has_protocol (fst (fst s)) = true)
            (scans (ProcessPayloadsAndHeaders link payloads headers)).
Proof.
  assert (scans (ProcessPayloadsAndHeaders link payloads headers)
          = map (fun ph => (EnsureProtocol link, fst ph, snd ph))
                (list_prod payloads (match headers with [] => [""] | _ => headers end)))
    as E.
  { unfold ProcessPayloadsAndHeaders. rewrite scans_app.
    change (scans [Say NoticeColor ("Checking URL Scheme: " ++ EnsureProtocol link);
                   SayLine ""]) with (@nil (string * string * string)).
    cbn [app]. destruct headers as [|h hs].
    - apply scans_no_headers.
    - apply scans_with_headers. }
  split; [exact E|]. rewrite E. split; [|split].
  - rewrite length_map, length_prod. destruct headers; simpl; lia.
  - intros payload header Hp Hh.
    apply (in_map (fun ph => (EnsureProtocol link, fst ph, snd ph))
                  _ (payload, header)).
    apply in_prod; [exact Hp|]. now destruct headers.
  - apply Forall_forall. intros s Hs. apply in_map_iff in Hs as [ph [<- _]].
    apply EnsureProtocol_protocol.
Qed.

Lemma ProcessPayloadsAndHeaders_scans_witness :
  In (EnsureProtocol " example.com ", "<p1>", "User-Agent")
     (scans (ProcessPayloadsAndHeaders " example.com " ["<p0>"; "<p1>"]
               ["Referer"; "User-Agent"])).
Proof.
  apply (ProcessPayloadsAndHeaders_scans " example.com " ["<p0>"; "<p1>"]
           ["Referer"; "User-Agent"]); simpl; auto.
Defined.

(* ------------------------------------------------------------------ *)
(** ** What [ParseRequests] returns *)

Lemma add_headers_shape (env : Env) (n : nat) (hs : list string) :
  forall req r,
    add_headers env n hs req = Ok r ->
    Method r = Method req /\ URL r = URL req
    /\ Header r = (Header req ++ map (header_pair env) hs)%list
    /\ Forall (fun h => 1 <= colons h) hs.
Proof.
  induction hs as [|h hs IH]; intros req r H.
  - injection H as <-. rewrite app_nil_r. repeat split. constructor.
  - cbn [add_headers] in H. destruct (Contains h ":") eqn:C; [|discriminate].
    destruct (SplitN2_colon h C) as (a & b & Hs & _ & _). rewrite Hs in H.
    destruct (IH _ _ H) as (M & U & Hd & F). cbn in M, U, Hd.
    repeat split; try assumption.
    + rewrite Hd, <- app_assoc. cbn [map app]. unfold header_pair at 2.
      now rewrite Hs.
    + constructor; [|exact F].
      rewrite colons_Contains in C. destruct (colons h); [discriminate | lia].
Qed.

Lemma validMethods_In (m : string) :
  validMethods m = true ->
  In m ["GET"; "POST"; "PUT"; "DELETE"; "HEAD"; "OPTIONS"; "PATCH"].
Proof.
  unfold validMethods. intro H. apply existsb_exists in H as (x & Hin & E).
  apply String.eqb_eq in E. now subst x.
Qed.

(** A parsed request line, field by field. *)
Lemma parseRequestLine_ok (env : Env) (line : string) (n : nat) (r : Request) :
  parseRequestLine env line n = Ok r ->
  2 <= List.length (Fields line)
  /\ Method r = ToUpper (unicode_upper env) (nth 0 (Fields line) "")
  /\ In (Method r) ["GET"; "POST"; "PUT"; "DELETE"; "HEAD"; "OPTIONS"; "PATCH"]
  /\ URL r = nth 1 (Fields line) ""
  /\ url_Parse env (URL r) = None
  /\ Header r = map (header_pair env) (skipn 2 (Fields line))
  /\ Forall (fun h => 1 <= colons h) (skipn 2 (Fields line)).
Proof.
  unfold parseRequestLine. intro H.
  destruct (Nat.ltb_spec (List.length (Fields line)) 2) as [L|L]; [discriminate|].
  destruct (validMethods (ToUpper (unicode_upper env) (nth 0 (Fields line) "")))
    eqn:V; cbn [negb] in H; [|discriminate].
  unfold http_NewRequest in H.
  destruct (url_Parse env (nth 1 (Fields line) "")) eqn:U; [discriminate|].
  destruct (add_headers_shape env n _ _ r H) as (M & Ur & Hd & F).
  cbn in M, Ur, Hd. rewrite M, Ur, Hd.
  repeat split; try assumption. now apply validMethods_In.
Qed.

Lemma parse_lines_ok (env : Env) (tokens : list string) :
  forall n acc reqs,
    parse_lines env tokens n acc = Ok reqs ->
    exists rs,
      reqs = (acc ++ rs)%list
      /\ Forall2 (fun line r => exists k, parseRequestLine env line k = Ok r)
                 (request_lines tokens) rs.
Proof.
  unfold request_lines.
  induction tokens as [|t tokens IH]; intros n acc reqs H.
  - injection H as <-. exists []. rewrite app_nil_r. split; [reflexivity|constructor].
  - cbn [parse_lines] in H. cbn [map filter].
    destruct (is_request_line (TrimSpace t)); cbn [negb] in H.
    + destruct (parseRequestLine env (TrimSpace t) (S n)) as [req|e] eqn:P;
        [|discriminate].
      destruct (IH _ _ _ H) as (rs & E & F).
      exists (req :: rs). rewrite E, <- app_assoc. split; [reflexivity|].
      constructor; [now exists (S n) | exact F].
    + apply (IH _ _ _ H).
Qed.

Lemma parse_lines_none (env : Env) (tokens : list string) :
  request_lines tokens = [] ->
  forall n acc, parse_lines env tokens n acc = Ok acc.
Proof.
  unfold request_lines.
  induction tokens as [|t tokens IH]; intros H n acc; [reflexivity|].
  cbn [parse_lines]. cbn [map filter] in H.
  destruct (is_request_line (TrimSpace t)); [discriminate|].
  cbn [negb]. now apply IH.
Qed.

(** X3. When [ParseRequests] succeeds, the file was read to its end without
    error and the requests returned are, in file order, exactly one for each
    non-blank non-comment line: at least one, each with one of the seven
    methods in upper case, the second field as its URL, and one header entry
    for each further field. *)
Theorem ParseRequests_success (env : Env) (p : RequestParser) (reqs : list Request) :
  ParseRequests env p = Ok reqs ->
  FilePath p <> ""
  /\ reqs <> []
  /\ exists content rerr,
       os_Open env (FilePath p) = Data content rerr
       /\ snd (Scanner content rerr) = None
       /\ Forall2
            (fun line r =>
               In (Method r) ["GET"; "POST"; "PUT"; "DELETE"; "HEAD"; "OPTIONS"; "PATCH"]
               /\ Method r = ToUpper (unicode_upper env) (nth 0 (Fields line) "")
               /\ URL r = nth 1 (Fields line) ""
               /\ Header r = map (header_pair env) (skipn 2 (Fields line)))
            (request_lines (fst (Scanner content rerr))) reqs.
Proof.
  unfold ParseRequests. intro H.
  destruct (String.eqb_spec (FilePath p) "") as [|N]; [discriminate|].
  split; [exact N|].
  destruct (os_Open env (FilePath p)) as [e|content rerr]; [discriminate|].
  destruct (Scanner content rerr) as [tokens serr] eqn:S.
  destruct (parse_lines env tokens 0 []) as [requests|e] eqn:P; [|discriminate].
  destruct serr as [e|]; [discriminate|].
  destruct requests as [|r0 rs]; [discriminate|].
  injection H as <-. split; [discriminate|].
  exists content, rerr. rewrite S. cbn [fst snd].
  split; [reflexivity|]. split; [reflexivity|].
  destruct (parse_lines_ok env tokens 0 [] _ P) as (rs' & E & F).
  cbn [app] in E. rewrite E.
  eapply Forall2_impl; [|exact F].
  intros line r [k Hk].
  destruct (parseRequestLine_ok env line k r Hk) as (_ & M & V & U & _ & Hd & _).
  repeat split; assumption.
Qed.

Lemma ParseRequests_success_witness :
  exists reqs,
    ParseRequests three_requests (NewRequestParser "requests.txt") = Ok reqs
    /\ List.length reqs = 3 /\ reqs <> [].
Proof.
  eexists. split; [vm_compute; reflexivity|]. split; [reflexivity|].
  refine (proj1 (proj2 (ParseRequests_success three_requests
                          (NewRequestParser "requests.txt") _ _))).
  vm_compute. reflexivity.
Defined.

(** X4. A request file that opens and has no request line -- an empty file,
    or one of blank lines and comments only -- is an error: the read error
    if the scan ended with one, and otherwise
    [no valid requests found in file]. *)
Theorem ParseRequests_no_requests (env : Env) (p : RequestParser)
  (content : string) (rerr : option error) :
  FilePath p <> "" ->
  os_Open env (FilePath p) = Data content rerr ->
  request_lines (fst (Scanner content rerr)) = [] ->
  ParseRequests env p
  = Err (match snd (Scanner content rerr) with
         | Some e => Errorf_w "error reading request file: " e
         | None => errors_New "no valid requests found in file"
         end).
Proof.
  intros N O R. unfold ParseRequests.
  destruct (String.eqb_spec (FilePath p) ""); [contradiction|].
  rewrite O. destruct (Scanner content rerr) as [tokens serr]. cbn [fst snd] in *.
  rewrite (parse_lines_none env tokens R 0 []).
  destruct serr; reflexivity.
Qed.

Lemma ParseRequests_no_requests_witness :
  ParseRequests only_comments (NewRequestParser "requests.txt")
  = Err (errors_New "no valid requests found in file").
Proof.
  apply (ParseRequests_no_requests only_comments (NewRequestParser "requests.txt")
           ("# nothing here" ++ nl ++ nl ++ "   " ++ nl) None).
  - discriminate.
  - reflexivity.
  - reflexivity.
Defined.

Lemma add_headers_first_bad (env : Env) (n : nat) (good : list string)
  (bad : string) (rest : list string) :
  Forall (fun h => 1 <= colons h) good -> colons bad = 0 ->
  forall req, add_headers env n (good ++ bad :: rest) req = Err (invalid_header n bad).
Proof.
  intros F B. induction good as [|h good IH]; intro req.
  - cbn [app add_headers]. rewrite colons_Contains, B. reflexivity.
  - inversion F as [|? ? Hh Ht]; subst. cbn [app add_headers].
    assert (Contains h ":" = true) as C.
    { rewrite colons_Contains. destruct (colons h); [lia | reflexivity]. }
    rewrite C. destruct (SplitN2_colon h C) as (a & b & Hs & _ & _).
    rewrite Hs. apply (IH Ht).
Qed.

(** X5. [parseRequestLine] reports the first check that fails, in this
    order: fewer than two fields; a method that, in upper case, is not one
    of the seven; a URL that does not parse; the leftmost header field
    without a colon.  Each error starts with the line number and quotes the
    offending method or header field. *)
Theorem parseRequestLine_first_failure (env : Env) (line : string) (n : nat) :
  (List.length (Fields line) < 2 ->
   parseRequestLine env line n
   = Err (errors_New (line_tag n
            ++ "invalid request format, expected at least METHOD and URL")))
  /\
  (forall m u hs,
     Fields line = m :: u :: hs ->
     (validMethods (ToUpper (unicode_upper env) m) = false ->
      parseRequestLine env line n
      = Err (errors_New (line_tag n ++ "invalid HTTP method '"
                         ++ ToUpper (unicode_upper env) m ++ "'")))
     /\
     (validMethods (ToUpper (unicode_upper env) m) = true ->
      (forall e, url_Parse env u = Some e ->
         parseRequestLine env line n
         = Err (Errorf_w (line_tag n ++ "failed to create request: ") e))
      /\
      (url_Parse env u = None ->
       forall good bad rest,
         hs = (good ++ bad :: rest)%list ->
         Forall (fun h => 1 <= colons h) good -> colons bad = 0 ->
         parseRequestLine env line n
         = Err (errors_New (line_tag n ++ "invalid header format '" ++ bad ++ "'"))))).
Proof.
  split.
  - intro L. unfold parseRequestLine.
    apply Nat.ltb_lt in L. now rewrite L.
  - intros m u hs F. unfold parseRequestLine. rewrite F.
    cbn [List.length Nat.ltb Nat.leb nth skipn]. split.
    + intro V. now rewrite V.
    + intro V. rewrite V. cbn [negb]. unfold http_NewRequest. split.
      * intros e U. now rewrite U.
      * intros U good bad rest -> G B. rewrite U.
        apply (add_headers_first_bad env n good bad rest G B).
Qed.

Lemma parseRequestLine_first_failure_witness :
  parseRequestLine three_requests "fetch http://a Xy" 7
  = Err (errors_New "line 7: invalid HTTP method 'FETCH'")
  /\ parseRequestLine three_requests "get http://a A:b Xy Zz" 7
     = Err (errors_New "line 7: invalid header format 'Xy'").
Proof.
  destruct (parseRequestLine_first_failure three_requests "fetch http://a Xy" 7)
    as [_ A].
  destruct (parseRequestLine_first_failure three_requests "get http://a A:b Xy Zz" 7)
    as [_ B].
  split.
  - apply (proj1 (A "fetch" "http://a" ["Xy"] eq_refl)). reflexivity.
  - apply (proj2 (proj2 (B "get" "http://a" ["A:b"; "Xy"; "Zz"] eq_refl) eq_refl)
             eq_refl ["A:b"] "Xy" ["Zz"] eq_refl).
    + repeat constructor.
    + reflexivity.
Defined.

(* ------------------------------------------------------------------ *)
(** ** [ExecuteRequests] and [ProcessCustomRequests] *)

Lemma do_requests_outcome (net : Net) (ctx : Handle) (requests : list Request) :
  forall k acc,
    match do_requests net ctx requests k acc with
    | (Ok resps, sent) =>
        sent = requests
        /\ exists new,
             resps = (acc ++ new)%list
             /\ List.length new = List.length requests
             /\ forall i req, nth_error requests i = Some req ->
                  exists resp, nth_error new i = Some resp
                               /\ client_Do net (k + i) ctx req = Ok resp
    | (Err e, sent) =>
        exists i req cause,
          nth_error requests i = Some req
          /\ client_Do net (k + i) ctx req = Err cause
          /\ e = Errorf_w ("failed to execute request to "
                           ++ URL_String net (URL req) ++ ": ") cause
          /\ sent = firstn (S i) requests
          /\ forall j reqj, j < i -> nth_error requests j = Some reqj ->
               is_ok (client_Do net (k + j) ctx reqj) = true
    end.
Proof.
  induction requests as [|req rest IH]; intros k acc.
  - cbn. split; [reflexivity|]. exists []. rewrite app_nil_r.
    repeat split. intros [|i] r H; discriminate.
  - cbn [do_requests].
    destruct (client_Do net k ctx req) as [resp|cause] eqn:D.
    + specialize (IH (S k) (acc ++ [resp])%list).
      destruct (do_requests net ctx rest (S k) (acc ++ [resp])) as [[resps|e] sent].
      * destruct IH as (-> & new & -> & L & Hn).
        split; [reflexivity|]. exists (resp :: new).
        rewrite <- app_assoc. split; [reflexivity|]. split; [simpl; lia|].
        intros [|i] r H.
        { injection H as <-. exists resp. now rewrite Nat.add_0_r. }
        simpl in H. destruct (Hn i r H) as (x & Hx & Dx).
        exists x. rewrite <- Nat.add_succ_comm. now split.
      * destruct IH as (i & r & cause & Hi & Di & -> & -> & Hmin).
        exists (S i), r, cause. rewrite <- Nat.add_succ_comm.
        repeat split; try assumption.
        intros [|j] rj Hj Hnj.
        { injection Hnj as <-. now rewrite Nat.add_0_r, D. }
        rewrite <- Nat.add_succ_comm. apply (Hmin j rj); [lia | exact Hnj].
    + exists 0, req, cause. rewrite Nat.add_0_r.
      repeat split; try assumption. intros j rj Hj. lia.
Qed.

(** X6. [ExecuteRequests] sends nothing when the file does not parse and
    returns the parse error as it is.  Otherwise it sends the requests in
    file order and stops at the first one that fails: the error wraps that
    failure and no response is returned, the later requests are not sent.
    When none fails there is one response for each request, in order. *)
Theorem ExecuteRequests_outcome (env : Env) (net : Net) (p : RequestParser)
  (ctx : Handle) :
  (forall e, ParseRequests env p = Err e ->
             ExecuteRequests env net p ctx = (Err e, []))
  /\
  (forall requests,
     ParseRequests env p = Ok requests ->
     match ExecuteRequests env net p ctx with
     | (Ok resps, sent) =>
         sent = requests
         /\ List.length resps = List.length requests
         /\ forall i req, nth_error requests i = Some req ->
              exists resp, nth_error resps i = Some resp
                           /\ client_Do net i ctx req = Ok resp
     | (Err e, sent) =>
         exists i req cause,
           nth_error requests i = Some req
           /\ client_Do net i ctx req = Err cause
           /\ e = Errorf_w ("failed to execute request to "
                            ++ URL_String net (URL req) ++ ": ") cause
           /\ sent = firstn (S i) requests
           /\ forall j reqj, j < i -> nth_error requests j = Some reqj ->
                is_ok (client_Do net j ctx reqj) = true
     end).
Proof.
  split.
  - intros e H. unfold ExecuteRequests. now rewrite H.
  - intros requests H. unfold ExecuteRequests. rewrite H.
    pose proof (do_requests_outcome net ctx requests 0 []) as O.
    destruct (do_requests net ctx requests 0 []) as [[resps|e] sent].
    + destruct O as (-> & new & -> & L & Hn). cbn [app].
      repeat split; assumption.
    + exact O.
Qed.

Lemma ExecuteRequests_outcome_witness :
  snd (ExecuteRequests three_requests second_fails (NewRequestParser "requests.txt") 0)
  = [ {| Method := "GET"; URL := "http://a"; Header := [] |};
      {| Method := "POST"; URL := "http://b"; Header := [("X", "y")] |} ]
  /\ ExecuteRequests only_comments answering (NewRequestParser "requests.txt") 0
     = (Err (errors_New "no valid requests found in file"), []).
Proof.
  split; [vm_compute; reflexivity|].
  apply (proj1 (ExecuteRequests_outcome only_comments answering
                  (NewRequestParser "requests.txt") 0)).
  vm_compute. reflexivity.
Defined.

Lemma NewBrowser_chrome (w : World) : NewBrowser "chrome" "" w = (chrome, w).
Proof. reflexivity. Qed.

Lemma CreateContext_not_found (env : Env) (b : Browser) (w : World) :
  Path b = "" -> (forall q, In q (browsers b) -> os_Stat env q = false) ->
  fst (CreateContext env b w) = Err (Errorf_w "browser not found: " ErrNotFound).
Proof.
  intros HP H. unfold CreateContext, findBrowserPath. rewrite HP. cbn [String.eqb negb andb].
  now rewrite (find_missing (os_Stat env) (browsers b) H).
Qed.

(** X7. [ProcessCustomRequests] always works through a Chrome session of
    its own, whatever the payloads: they do not enter the run.  When the
    session cannot be made -- in particular when none of the six Chrome
    paths exists -- it returns that error wrapped, without reading the
    request file and without sending a request.  When the session is made,
    the requests sent are those of [ExecuteRequests]; the bodies of all
    responses are closed if every request succeeds and none is closed if
    one fails; the session's release capability is called last in either
    case. *)
Theorem ProcessCustomRequests_outcome (env : Env) (net : Net) (p : CustomRequests)
  (payloads : list string) (w : World) :
  ((forall q, In q chrome_paths -> os_Stat env q = false) ->
   run_error (ProcessCustomRequests env net p payloads w)
   = Some (Errorf_w "failed to create browser context: "
             (Errorf_w "browser not found: " ErrNotFound))
   /\ run_sent (ProcessCustomRequests env net p payloads w) = []
   /\ run_closed (ProcessCustomRequests env net p payloads w) = [])
  /\
  (forall e, fst (CreateContext env chrome w) = Err e ->
   run_error (ProcessCustomRequests env net p payloads w)
   = Some (Errorf_w "failed to create browser context: " e)
   /\ run_sent (ProcessCustomRequests env net p payloads w) = []
   /\ run_closed (ProcessCustomRequests env net p payloads w) = [])
  /\
  (forall ctx, fst (CreateContext env chrome w) = Ok ctx ->
   run_sent (ProcessCustomRequests env net p payloads w)
   = snd (ExecuteRequests env net (NewRequestParser (filePath p)) ctx)
   /\ match fst (ExecuteRequests env net (NewRequestParser (filePath p)) ctx) with
      | Ok resps =>
          run_error (ProcessCustomRequests env net p payloads w) = None
          /\ run_closed (ProcessCustomRequests env net p payloads w) = resps
      | Err err =>
          run_error (ProcessCustomRequests env net p payloads w) = Some err
          /\ run_closed (ProcessCustomRequests env net p payloads w) = []
      end
   /\ exists es,
        trace (run_world (ProcessCustomRequests env net p payloads w))
        = (es ++ [CancelSession ctx])%list)
  /\
  (forall payloads',
     ProcessCustomRequests env net p payloads' w
     = ProcessCustomRequests env net p payloads w).
Proof.
  assert (forall e, fst (CreateContext env chrome w) = Err e ->
            run_error (ProcessCustomRequests env net p payloads w)
            = Some (Errorf_w "failed to create browser context: " e)
            /\ run_sent (ProcessCustomRequests env net p payloads w) = []
            /\ run_closed (ProcessCustomRequests env net p payloads w) = []) as Hfail.
  { intros e H. unfold ProcessCustomRequests. rewrite NewBrowser_chrome.
    destruct (CreateContext env chrome w) as [r w1]. cbn [fst] in H. subst r.
    repeat split. }
  split; [|split; [exact Hfail|split]].
  - intro H. apply Hfail. apply CreateContext_not_found; [reflexivity | exact H].
  - intros ctx H. unfold ProcessCustomRequests. rewrite NewBrowser_chrome.
    destruct (CreateContext env chrome w) as [r w1]. cbn [fst] in H. subst r.
    destruct (ExecuteRequests env net (NewRequestParser (filePath p)) ctx)
      as [[resps|err] sent]; cbn [fst snd run_sent run_error run_closed run_world];
      (split; [reflexivity|]); (split; [split; reflexivity|]);
      eexists; unfold emit; cbn [trace]; reflexivity.
  - reflexivity.
Qed.

Lemma ProcessCustomRequests_outcome_witness :
  run_error (ProcessCustomRequests no_browser answering
               {| filePath := "requests.txt" |} ["<p>"] world0)
  = Some (Errorf_w "failed to create browser context: "
            (Errorf_w "browser not found: " ErrNotFound))
  /\ run_sent (ProcessCustomRequests three_requests answering
                 {| filePath := "requests.txt" |} ["<p>"] world0)
     = snd (ExecuteRequests three_requests answering
              (NewRequestParser "requests.txt") 0).
Proof.
  split.
  - refine (proj1 (proj1 (ProcessCustomRequests_outcome no_browser answering
                            {| filePath := "requests.txt" |} ["<p>"] world0) _)).
    intros q _. reflexivity.
  - refine (proj1 (proj1 (proj2 (proj2 (ProcessCustomRequests_outcome three_requests
                            answering {| filePath := "requests.txt" |} ["<p>"] world0)))
                     0 _)).
    vm_compute. reflexivity.
Defined.

(* ------------------------------------------------------------------ *)
(** ** The lines of [ReadLinesFromFile] *)

(** X8. Every line that [ReadLinesFromFile] returns is free of white space
    at both ends (it may be empty), so that trimming it again changes
    nothing; and there are as many lines as the scanner delivered. *)
Theorem ReadLinesFromFile_trimmed (env : Env) (p : PayloadParser)
  (lines : list string) :
  ReadLinesFromFile env p = Ok lines ->
  Forall trimmed lines
  /\ map TrimSpace lines = lines
  /\ exists content rerr,
       os_Open env (PayloadFile (args p)) = Data content rerr
       /\ List.length lines = List.length (fst (Scanner content rerr)).
Proof.
  unfold ReadLinesFromFile. intro H.
  destruct (os_Open env (PayloadFile (args p))) as [e|content rerr]; [discriminate|].
  destruct (Scanner content rerr) as [tokens serr] eqn:S.
  destruct serr; [discriminate|]. injection H as <-.
  split; [|split].
  - apply Forall_forall. intros l Hl. apply in_map_iff in Hl as [t [<- _]].
    apply TrimSpace_trimmed.
  - rewrite map_map. apply map_ext. intro t. apply TrimSpace_idempotent.
  - exists content, rerr. split; [reflexivity|]. rewrite S. apply length_map.
Qed.

Lemma ReadLinesFromFile_trimmed_witness :
  Forall trimmed ["a"; ""; "b"].
Proof.
  refine (proj1 (ReadLinesFromFile_trimmed payloads_with_blank
                   (NewPayload {| PayloadFile := "payloads.txt" |}) _ _)).
  vm_compute. reflexivity.
Defined.

(* ------------------------------------------------------------------ *)
(** ** Descriptors made by [NewBrowser] and the sessions of [CreateContext] *)

Lemma since_trace (w w' : World) (es : list Event) :
  trace w' = (trace w ++ es)%list -> since w w' = es.
Proof.
  intro H. unfold since. rewrite H, skipn_app, Nat.sub_diag, skipn_all.
  reflexivity.
Qed.

Lemma findBrowserPath_exists (env : Env) (b : Browser) (w : World) (path : string) :
  fst (findBrowserPath env b w) = Ok path ->
  os_Stat env path = true
  /\ ((path = Path b /\ Path b <> "") \/ In path (browsers b)).
Proof.
  unfold findBrowserPath.
  destruct (negb (Path b =? "") && os_Stat env (Path b)) eqn:C.
  - cbn. intro H. injection H as <-. apply andb_true_iff in C as [N C].
    split; [exact C|]. left. split; [reflexivity|].
    destruct (String.eqb_spec (Path b) ""); [discriminate | assumption].
  - destruct (find (os_Stat env) (browsers b)) as [x|] eqn:F; cbn; intro H;
      [|discriminate].
    injection H as <-. apply find_some in F. tauto.
Qed.

Lemma NewBrowser_fields (browserType customPath : string) (w : World) :
  (Type_ (fst (NewBrowser browserType customPath w)) = Chrome
   \/ Type_ (fst (NewBrowser browserType customPath w)) = Chromium
   \/ Type_ (fst (NewBrowser browserType customPath w)) = Firefox)
  /\ Path (fst (NewBrowser browserType customPath w)) = customPath
  /\ (customPath <> "" ->
      exists l, browsers (fst (NewBrowser browserType customPath w)) = customPath :: l).
Proof.
  unfold NewBrowser, initBrowserPaths. cbn [fst Type_ Path browsers].
  destruct (String.eqb_spec browserType Chrome) as [->|N1]; cbn [negb andb].
  { split; [now left|]. split; [reflexivity|]. intro N.
    apply String.eqb_neq in N. rewrite N. eexists. reflexivity. }
  destruct (String.eqb_spec browserType Chromium) as [->|N2]; cbn [negb andb].
  { split; [right; now left|]. split; [reflexivity|]. intro N.
    apply String.eqb_neq in N. rewrite N. eexists. reflexivity. }
  destruct (String.eqb_spec browserType Firefox) as [->|N3]; cbn [negb andb].
  { split; [right; now right|]. split; [reflexivity|]. intro N.
    apply String.eqb_neq in N. rewrite N. eexists. reflexivity. }
  split; [now left|]. split; [reflexivity|]. intro N.
  apply String.eqb_neq in N. rewrite N. eexists. reflexivity.
Qed.

(** X9. A descriptor made by [NewBrowser] always has one of the three
    kinds, so [CreateContext] on it never ends in
    [unsupported browser type]; and a path that [findBrowserPath] resolves
    for it exists on the file system and is one of its candidates. *)
Theorem NewBrowser_supported (browserType customPath : string) (w : World) :
  (Type_ (fst (NewBrowser browserType customPath w)) = Chrome
   \/ Type_ (fst (NewBrowser browserType customPath w)) = Chromium
   \/ Type_ (fst (NewBrowser browserType customPath w)) = Firefox)
  /\ (forall env w',
        fst (CreateContext env (fst (NewBrowser browserType customPath w)) w')
        <> Err (errors_New "unsupported browser type"))
  /\ (forall env w' path,
        fst (findBrowserPath env (fst (NewBrowser browserType customPath w)) w')
        = Ok path ->
        os_Stat env path = true
        /\ In path (browsers (fst (NewBrowser browserType customPath w)))).
Proof.
  destruct (NewBrowser_fields browserType customPath w) as (K & P & B).
  set (b := fst (NewBrowser browserType customPath w)) in *.
  split; [exact K|]. split.
  - intros env w'. unfold CreateContext.
    destruct (findBrowserPath env b (count_created w')) as [[path|err] w1];
      [|discriminate].
    destruct K as [K|[K|K]]; rewrite K; cbn [String.eqb orb Ascii.eqb Bool.eqb].
    + change (Chrome =? Chrome) with true. cbn [orb].
      destruct (chromedp_Run env (launched w1)); discriminate.
    + change (Chromium =? Chrome) with false. change (Chromium =? Chromium) with true.
      cbn [orb]. destruct (chromedp_Run env (launched w1)); discriminate.
    + change (Firefox =? Chrome) with false. change (Firefox =? Chromium) with false.
      change (Firefox =? Firefox) with true. cbn [orb]. discriminate.
  - intros env w' path H.
    destruct (findBrowserPath_exists env b w' path H) as [S [[E N]|I]].
    + split; [exact S|]. rewrite P in E, N. subst path.
      destruct (B N) as [l ->]. now left.
    + now split.
Qed.

Lemma NewBrowser_supported_witness :
  os_Stat only_custom "/opt/chrome" = true
  /\ In "/opt/chrome" (browsers custom_chrome).
Proof.
  refine (proj2 (proj2 (NewBrowser_supported "chrome" "/opt/chrome" world0))
            only_custom world0 "/opt/chrome" _).
  reflexivity.
Defined.

Lemma findBrowserPath_trace (env : Env) (b : Browser) (w : World) :
  exists es,
    trace (snd (findBrowserPath env b w)) = (trace w ++ es)%list
    /\ worker_warnings es = 0 /\ existsb is_launch es = false
    /\ forall id, released id es = 0.
Proof.
  unfold findBrowserPath.
  destruct (negb (Path b =? "") && os_Stat env (Path b)).
  - exists []. cbn. rewrite app_nil_r. auto.
  - destruct (negb (Path b =? ""));
      destruct (find (os_Stat env) (browsers b)); cbn [snd emit trace];
      solve [ exists []; rewrite app_nil_r; auto
            | eexists; split; [reflexivity|]; auto ].
Qed.

(** X10. A session that [CreateContext] returns has been started on an
    executable that exists, and its release capability and its allocator
    cancel have both been called -- by the deferred calls -- before the
    caller gets it: the events of the call end with the start, the release
    and the allocator cancel of that session.  The handle is the number of
    the engine start, and exactly one engine is started. *)
Theorem CreateContext_session_released (env : Env) (b : Browser) (w : World)
  (id : Handle) :
  fst (CreateContext env b w) = Ok id ->
  id = launched w
  /\ launched (snd (CreateContext env b w)) = S (launched w)
  /\ chromedp_Run env id = None
  /\ exists pre path,
       since w (snd (CreateContext env b w))
       = (pre ++ [Launch id path; CancelSession id; CancelAllocator id])%list
       /\ os_Stat env path = true
       /\ existsb is_launch pre = false
       /\ released id (since w (snd (CreateContext env b w))) = 1.
Proof.
  unfold CreateContext. intro H.
  destruct (findBrowserPath_trace env b (count_created w)) as (es & T & _ & L & R).
  destruct (findBrowserPath_counts env b (count_created w)) as (_ & HL & _).
  pose proof (findBrowserPath_exists env b (count_created w)) as Ex.
  destruct (findBrowserPath env b (count_created w)) as [[path|err] w1];
    cbn [fst snd] in *; [|discriminate].
  destruct (Ex path eq_refl) as [S _]. clear Ex.
  cbn [count_created launched trace] in HL, T.
  destruct ((Type_ b =? Chrome) || (Type_ b =? Chromium)).
  - destruct (chromedp_Run env (launched w1)) as [e|] eqn:Run; [discriminate|].
    cbn [fst snd] in *. injection H as <-.
    rewrite <- HL. split; [reflexivity|]. split; [reflexivity|].
    split; [exact Run|].
    exists es, path.
    assert (since w (emit (emit (count_launched w1) [Launch (launched w1) path])
                       [CancelSession (launched w1); CancelAllocator (launched w1)])
            = (es ++ [Launch (launched w1) path; CancelSession (launched w1);
                      CancelAllocator (launched w1)])%list) as E.
    { apply since_trace. cbn [emit trace count_launched]. rewrite T.
      rewrite <- !app_assoc. reflexivity. }
    rewrite E. split; [reflexivity|]. split; [exact S|]. split; [exact L|].
    unfold released in *. rewrite filter_app, length_app, (R (launched w1)).
    cbn [filter is_release]. rewrite Nat.eqb_refl. reflexivity.
  - destruct (Type_ b =? Firefox); discriminate.
Qed.

Lemma CreateContext_session_released_witness :
  released 0 (since world0 (snd (CreateContext always_starts chrome world0))) = 1.
Proof.
  destruct (CreateContext_session_released always_starts chrome world0 0)
    as (_ & _ & _ & pre & path & _ & _ & _ & R).
  - vm_compute. reflexivity.
  - exact R.
Defined.

(* ------------------------------------------------------------------ *)
(** ** The buffer of the pool *)

Lemma init_loop_capacity (env : Env) (n : nat) :
  forall i p w p' w',
    init_loop env n i p w = Returns (p', w') ->
    within_capacity p ->
    within_capacity p' /\ maxWorkers p' = maxWorkers p.
Proof.
  unfold within_capacity.
  induction n as [|n IH]; intros i p w p' w' H C.
  - injection H as <- <-. auto.
  - cbn [init_loop] in H.
    destruct (CreateContext env (browser p) w) as [[h|err] w1].
    + destruct (has_room (set_cancelFuncs p (cancelFuncs p ++ [h]))) eqn:R;
        [|discriminate].
      unfold has_room in R. cbn in R. apply Nat.ltb_lt in R.
      apply IH in H; [exact H|]. cbn. rewrite length_app. simpl. lia.
    + apply IH in H; [exact H|]. exact C.
Qed.

Lemma Initialize_capacity (env : Env) (p : BrowserPool) (w : World)
  (r : option error) (p' : BrowserPool) (w' : World) :
  Initialize env p w = Returns (r, p', w') ->
  within_capacity p ->
  within_capacity p' /\ maxWorkers p' = maxWorkers p.
Proof.
  unfold Initialize. intros H C.
  destruct (initializing p || initialized p).
  - injection H as <- <- <-. auto.
  - destruct (init_loop env _ _ _ _) as [[q v]|] eqn:L; [|discriminate].
    apply init_loop_capacity in L; [|exact C].
    destruct (0 <? _)%nat; injection H as <- <- <-; exact L.
Qed.

Lemma select_get_capacity (env : Env) (p : BrowserPool) (w : World) :
  within_capacity p ->
  within_capacity (snd (fst (select_get env p w)))
  /\ maxWorkers (snd (fst (select_get env p w))) = maxWorkers p.
Proof.
  unfold within_capacity, select_get. intro C.
  destruct (pool p) as [|h l] eqn:P, (ctx_done p);
    try destruct (select_pick env (selects w)); cbn; rewrite ?P; simpl in *;
    split; try reflexivity; lia.
Qed.

Lemma GetContext_rest_capacity (env : Env) (p : BrowserPool) (w : World)
  (r : result Handle) (p' : BrowserPool) (w' : World) :
  GetContext_rest env p w = Returns (r, p', w') ->
  within_capacity p ->
  within_capacity p' /\ maxWorkers p' = maxWorkers p.
Proof.
  unfold GetContext_rest. intros H C.
  destruct (initializing p && negb (initialization p =? 0)%nat); [discriminate|].
  destruct (negb (initialized p)).
  - destruct (CreateContext env (browser p) _) as [[h|e] v];
      injection H as <- <- <-; auto.
  - destruct (select_get_capacity env p w C) as [A B].
    destruct (select_get env p w) as [[x q] v]. injection H as <- <- <-.
    auto.
Qed.

(** X11. The buffer never holds more handles than the pool has workers:
    if it does not before a call of [Initialize], [GetContext],
    [ReleaseContext] or [Close], it does not after it, and the capacity is
    not changed by any of them. *)
Theorem within_capacity_kept (env : Env) (p : BrowserPool) :
  within_capacity p ->
  (forall w r p' w',
     Initialize env p w = Returns (r, p', w') ->
     within_capacity p' /\ maxWorkers p' = maxWorkers p)
  /\ (forall w r p' w',
        GetContext env p w = Returns (r, p', w') ->
        within_capacity p' /\ maxWorkers p' = maxWorkers p)
  /\ (forall ctx w,
        within_capacity (fst (ReleaseContext env p ctx w))
        /\ maxWorkers (fst (ReleaseContext env p ctx w)) = maxWorkers p)
  /\ (forall w,
        within_capacity (fst (Close p w))
        /\ maxWorkers (fst (Close p w)) = maxWorkers p).
Proof.
  intro C. split; [|split; [|split]].
  - intros w r p' w' H. apply (Initialize_capacity env p w r p' w' H C).
  - intros w r p' w' H. unfold GetContext in H.
    destruct (negb (initialized p) && negb (initializing p)).
    + destruct (Initialize env p w) as [[[e q] v]|] eqn:I; [|discriminate].
      destruct (Initialize_capacity env p w e q v I C) as [Cq Mq].
      destruct e as [err|].
      * injection H as <- <- <-. auto.
      * destruct (GetContext_rest_capacity env q v r p' w' H Cq) as [A B].
        split; [exact A | congruence].
    + apply (GetContext_rest_capacity env p w r p' w' H C).
  - intros ctx w. unfold ReleaseContext.
    destruct (negb (initialized p)); [auto|].
    assert (has_room p = true ->
            within_capacity (set_pool p (pool p ++ [ctx]))
            /\ maxWorkers (set_pool p (pool p ++ [ctx])) = maxWorkers p) as Push.
    { unfold within_capacity, has_room. intro R. apply Nat.ltb_lt in R.
      cbn. rewrite length_app. simpl. split; [lia | reflexivity]. }
    destruct (has_room p) eqn:R, (ctx_done p);
      try destruct (select_pick env (selects w)); cbn [fst]; auto.
  - intro w. auto.
Qed.

Lemma within_capacity_kept_witness :
  within_capacity (fst (ReleaseContext always_starts ready_pair 7 world0)).
Proof.
  refine (proj1 (proj1 (proj2 (proj2 (within_capacity_kept always_starts ready_pair _)))
                   7 world0)).
  unfold within_capacity. simpl. lia.
Defined.

(** X12. The buffer is first in, first out: on a ready pool with a live
    token and room in the channel, a released handle goes behind the
    handles already buffered, and as many calls of [GetContext] as the
    buffer then holds return the formerly buffered handles in their order
    and the released one last, leaving the buffer empty. *)
Theorem ReleaseContext_fifo (env : Env) (p : BrowserPool) (ctx : Handle) (w : World) :
  ready p -> ctx_done p = false -> has_room p = true ->
  ReleaseContext env p ctx w = (set_pool p (pool p ++ [ctx]), w)
  /\ GetContexts env (S (List.length (pool p))) (fst (ReleaseContext env p ctx w)) w
     = Returns (map Ok (pool p ++ [ctx]), set_pool p [], w).
Proof.
  intros R D Room.
  assert (ReleaseContext env p ctx w = (set_pool p (pool p ++ [ctx]), w)) as E.
  { unfold ReleaseContext. destruct R as [Ri _]. now rewrite Ri, Room, D. }
  split; [exact E|]. rewrite E. cbn [fst].
  replace (S (List.length (pool p))) with (List.length (pool p ++ [ctx]))
    by (rewrite length_app; simpl; lia).
  apply (GetContexts_drain env (pool p ++ [ctx]) (set_pool p (pool p ++ [ctx])) w).
  - exact R.
  - exact D.
  - reflexivity.
Qed.

Lemma ReleaseContext_fifo_witness :
  GetContexts always_starts 3
    (fst (ReleaseContext always_starts ready_of_three 7 world0)) world0
  = Returns ([Ok 0; Ok 1; Ok 7], set_pool ready_of_three [], world0).
Proof.
  refine (proj2 (ReleaseContext_fifo always_starts ready_of_three 7 world0 _ _ _)).
  - split; reflexivity.
  - reflexivity.
  - reflexivity.
Defined.

(** X13. [ReleaseContext] does not check who holds a handle: on a ready
    pool with a live token and room for two, releasing the same handle twice
    puts it into the buffer twice, and the calls of [GetContext] that drain
    the buffer then return that handle to two callers. *)
Theorem ReleaseContext_twice (env : Env) (p : BrowserPool) (ctx : Handle) (w : World) :
  ready p -> ctx_done p = false ->
  List.length (pool p) + 2 <= maxWorkers p ->
  fst (ReleaseContext env (fst (ReleaseContext env p ctx w)) ctx w)
  = set_pool p (pool p ++ [ctx; ctx])
  /\ GetContexts env (List.length (pool p) + 2)
       (fst (ReleaseContext env (fst (ReleaseContext env p ctx w)) ctx w)) w
     = Returns (map Ok (pool p ++ [ctx; ctx]), set_pool p [], w).
Proof.
  intros R D L.
  assert (has_room p = true) as Room1
    by (unfold has_room; apply Nat.ltb_lt; lia).
  destruct (ReleaseContext_fifo env p ctx w R D Room1) as [E1 _].
  rewrite E1. cbn [fst].
  assert (has_room (set_pool p (pool p ++ [ctx])) = true) as Room2.
  { unfold has_room. cbn. apply Nat.ltb_lt. rewrite length_app. simpl. lia. }
  destruct (ReleaseContext_fifo env (set_pool p (pool p ++ [ctx])) ctx w R D Room2)
    as [E2 G].
  rewrite E2 in *. cbn [fst pool set_pool] in *.
  rewrite <- app_assoc in *. cbn [app] in *.
  split; [reflexivity|].
  replace (List.length (pool p) + 2) with (S (List.length (pool p ++ [ctx])))
    by (rewrite length_app; simpl; lia).
  exact G.
Qed.

Lemma ReleaseContext_twice_witness :
  GetContexts always_starts 2
    (fst (ReleaseContext always_starts
            (fst (ReleaseContext always_starts (set_pool ready_pair []) 0 world0))
            0 world0)) world0
  = Returns ([Ok 0; Ok 0], set_pool ready_pair [], world0).
Proof.
  refine (proj2 (ReleaseContext_twice always_starts (set_pool ready_pair []) 0 world0
                   _ _ _)).
  - split; reflexivity.
  - reflexivity.
  - simpl. lia.
Defined.

(* ------------------------------------------------------------------ *)
(** ** The warning of [Initialize] *)

Lemma worker_warnings_app (a b : list Event) :
  worker_warnings (a ++ b) = worker_warnings a + worker_warnings b.
Proof. unfold worker_warnings. now rewrite filter_app, length_app. Qed.

Lemma CreateContext_trace (env : Env) (b : Browser) (w : World) :
  exists es,
    trace (snd (CreateContext env b w)) = (trace w ++ es)%list
    /\ worker_warnings es = 0.
Proof.
  unfold CreateContext.
  destruct (findBrowserPath_trace env b (count_created w)) as (es & T & W & _).
  destruct (findBrowserPath env b (count_created w)) as [[path|err] w1];
    cbn [fst snd] in *; cbn [count_created trace] in T.
  - destruct ((Type_ b =? Chrome) || (Type_ b =? Chromium)).
    + destruct (chromedp_Run env (launched w1)); cbn [snd emit trace count_launched];
        rewrite T, <- !app_assoc; eexists; (split; [reflexivity|]);
        rewrite worker_warnings_app, W; reflexivity.
    + destruct (Type_ b =? Firefox); cbn [snd]; exists es; auto.
  - cbn [snd emit trace]. rewrite T, <- app_assoc. eexists. split; [reflexivity|].
    rewrite worker_warnings_app, W. reflexivity.
Qed.

(** The loop prints the warning for a failure only when the failure counter
    goes from zero to one. *)
Lemma init_loop_warnings (env : Env) (n : nat) :
  forall i p w p' w',
    init_loop env n i p w = Returns (p', w') ->
    initErrCount p <= initErrCount p'
    /\ exists es,
         trace w' = (trace w ++ es)%list
         /\ worker_warnings es
            = if ((initErrCount p =? 0) && negb (initErrCount p' =? 0))%nat
              then 1 else 0.
Proof.
  induction n as [|n IH]; intros i p w p' w' H.
  - injection H as <- <-. split; [lia|]. exists []. rewrite app_nil_r.
    split; [reflexivity|]. destruct (initErrCount p); reflexivity.
  - cbn [init_loop] in H.
    destruct (CreateContext_trace env (browser p) w) as (es1 & T1 & W1).
    destruct (CreateContext env (browser p) w) as [[h|err] w1]; cbn [snd] in T1.
    + destruct (has_room _); [|discriminate].
      apply IH in H as (Le & es & T & W). cbn in Le, T, W.
      split; [exact Le|].
      exists (es1 ++ Printf SuccessColor
                        ("Browser worker " ++ itoa (i + 1) ++ " initialized"
                         ++ String "010"%char "") :: es)%list.
      split.
      * rewrite T, T1, <- !app_assoc. reflexivity.
      * rewrite worker_warnings_app, W1.
        change (worker_warnings (Printf SuccessColor
                  ("Browser worker " ++ itoa (i + 1) ++ " initialized"
                   ++ String "010"%char "") :: es))
          with (worker_warnings es).
        exact W.
    + apply IH in H as (Le & es & T & W).
      cbn [initErrCount set_initErrCount] in Le, T, W.
      split; [lia|].
      assert (is_worker_warning
                (Printf WarningColor ("Error initializing browser worker: "
                                      ++ Error err ++ String "010"%char "")) = true)
        as Hw by apply HasPrefix_tag.
      destruct (initErrCount p) as [|c] eqn:C.
      * cbn [Nat.eqb] in T.
        eexists. split; [rewrite T; cbn [emit trace]; rewrite T1, <- !app_assoc;
                         reflexivity|].
        rewrite !worker_warnings_app, W1, W. cbn [Nat.eqb andb].
        unfold worker_warnings at 1. cbn [filter app]. rewrite Hw.
        destruct (initErrCount p') as [|c']; [lia|]. reflexivity.
      * cbn [Nat.eqb] in T. destruct c; cbn [Nat.eqb] in T;
          (exists (es1 ++ es)%list; split;
           [rewrite T, T1, <- app_assoc; reflexivity|];
           rewrite worker_warnings_app, W1, W; reflexivity).
Qed.

(** X14. [Initialize] prints the warning for a failed worker at most once:
    exactly once when the pool had counted no failure before and at least
    one [CreateContext] of this run fails, and not at all in a run on a pool
    that has counted a failure earlier or in which no call fails.  The
    failure counter never decreases. *)
Theorem Initialize_warns_once (env : Env) (p : BrowserPool) (w : World)
  (r : option error) (p' : BrowserPool) (w' : World) :
  Initialize env p w = Returns (r, p', w') ->
  initErrCount p <= initErrCount p'
  /\ worker_warnings (since w w')
     = (if ((initErrCount p =? 0) && negb (initErrCount p' =? 0))%nat then 1 else 0)
  /\ worker_warnings (since w w') <= 1.
Proof.
  intro H.
  assert (initErrCount p <= initErrCount p'
          /\ worker_warnings (since w w')
             = (if ((initErrCount p =? 0) && negb (initErrCount p' =? 0))%nat
                then 1 else 0)) as [Le W].
  { unfold Initialize in H. destruct (initializing p || initialized p).
    - injection H as <- <- <-. split; [lia|].
      rewrite (since_trace w w [] (eq_sym (app_nil_r _))).
      destruct (initErrCount p); reflexivity.
    - destruct (init_loop env _ _ _ _) as [[q v]|] eqn:L; [|discriminate].
      apply init_loop_warnings in L as (Le & es & T & W).
      cbn [initErrCount set_initialization set_initializing emit trace] in Le, T, W.
      rewrite <- app_assoc in T.
      destruct (0 <? _)%nat; injection H as <- <- <-;
        cbn [initErrCount set_initialization set_initialized set_initializing];
        (split; [exact Le|]).
      + erewrite since_trace
          by (cbn [emit trace]; rewrite T, <- app_assoc; reflexivity).
        rewrite !worker_warnings_app, W. cbn. lia.
      + erewrite since_trace by exact T.
        rewrite worker_warnings_app, W. reflexivity. }
  split; [exact Le|]. split; [exact W|]. rewrite W.
  destruct ((initErrCount p =? 0) && negb (initErrCount p' =? 0))%nat; lia.
Qed.

Lemma Initialize_warns_once_witness :
  exists p' w',
    Initialize never_starts (NewBrowserPool chrome 3) world0
    = Returns (Some ErrInit, p', w')
    /\ initErrCount p' = 3 /\ worker_warnings (since world0 w') = 1.
Proof.
  eexists _, _. split; [vm_compute; reflexivity|].
  match goal with
  | |- initErrCount ?P = 3 /\ worker_warnings (since _ ?W) = 1 =>
    split;
    [ reflexivity
    | exact (proj1 (proj2 (Initialize_warns_once never_starts
                             (NewBrowserPool chrome 3) world0 (Some ErrInit) P W
                             ltac:(vm_compute; reflexivity)))) ]
  end.
Defined.

(* ------------------------------------------------------------------ *)
(** ** [GetContext] after [Close] *)

Lemma init_loop_ctx_done (env : Env) (n : nat) :
  forall i p w p' w',
    init_loop env n i p w = Returns (p', w') -> ctx_done p' = ctx_done p.
Proof.
  induction n as [|n IH]; intros i p w p' w' H.
  - now injection H as <- <-.
  - cbn [init_loop] in H.
    destruct (CreateContext env (browser p) w) as [[h|err] w1].
    + destruct (has_room _); [|discriminate]. now apply IH in H.
    + now apply IH in H.
Qed.

Lemma GetContext_ctx_done (env : Env) (p : BrowserPool) (w : World)
  (r : result Handle) (p' : BrowserPool) (w' : World) :
  GetContext env p w = Returns (r, p', w') -> ctx_done p' = ctx_done p.
Proof.
  assert (forall q v, ctx_done (snd (fst (select_get env q v))) = ctx_done q) as Sel.
  { intros q v. unfold select_get.
    destruct (pool q), (ctx_done q) eqn:D;
      try destruct (select_pick env (selects v)); cbn; congruence. }
  assert (forall q v x q' v',
            GetContext_rest env q v = Returns (x, q', v') ->
            ctx_done q' = ctx_done q) as Rest.
  { intros q v x q' v' H. unfold GetContext_rest in H.
    destruct (initializing q && negb (initialization q =? 0)%nat); [discriminate|].
    destruct (negb (initialized q)).
    - destruct (CreateContext env (browser q) _) as [[h|e] u];
        now injection H as <- <- <-.
    - specialize (Sel q v). destruct (select_get env q v) as [[y z] u].
      now injection H as <- <- <-. }
  assert (forall q v e q' v',
            Initialize env q v = Returns (e, q', v') ->
            ctx_done q' = ctx_done q) as Init.
  { intros q v e q' v' H. unfold Initialize in H.
    destruct (initializing q || initialized q).
    - now injection H as <- <- <-.
    - destruct (init_loop env _ _ _ _) as [[x u]|] eqn:L; [|discriminate].
      apply init_loop_ctx_done in L.
      destruct (0 <? _)%nat; injection H as <- <- <-; exact L. }
  intro H. unfold GetContext in H.
  destruct (negb (initialized p) && negb (initializing p)).
  - destruct (Initialize env p w) as [[[e q] v]|] eqn:I; [|discriminate].
    apply Init in I. destruct e.
    + injection H as <- <- <-. exact I.
    + apply Rest in H. congruence.
  - apply (Rest _ _ _ _ _ H).
Qed.

(** X15. [Close] does not end the life of a pool.  After [Close] on a pool
    whose buffer is empty and on which no initialisation is running, the
    next [GetContext] finds the pool uninitialised and runs the whole
    creation sequence again, one [CreateContext] for each worker: if a
    session starts the pool is initialised anew, and if none starts the call
    returns the initialisation error -- not [browser pool is closed]. *)
Theorem GetContext_after_Close (env : Env) (p : BrowserPool) (w w' : World) :
  initializing p = false -> pool p = [] ->
  exists res p2 w2,
    GetContext env (fst (Close p w)) w' = Returns (res, p2, w2)
    /\ created w2 = created w' + maxWorkers p
    /\ ctx_done p2 = true
    /\ if (0 <? List.length (successes env (browser p) (launched w') (maxWorkers p)))%nat
       then initialized p2 = true
       else res = Err ErrInit /\ res <> Err ErrClosed /\ initialized p2 = false.
Proof.
  intros Hg HP.
  assert (pool (fst (Close p w)) = []) as P1 by exact HP.
  assert (initializing (fst (Close p w)) = false) as G1 by exact Hg.
  destruct (GetContext_uninitialised env (fst (Close p w)) w' P1 eq_refl G1 eq_refl)
    as (res & p2 & w2 & G & Cr & K).
  exists res, p2, w2. split; [exact G|]. split; [exact Cr|].
  change (browser (fst (Close p w))) with (browser p) in *.
  change (maxWorkers (fst (Close p w))) with (maxWorkers p) in *.
  split.
  - rewrite (GetContext_ctx_done env (fst (Close p w)) w' res p2 w2 G). reflexivity.
  - destruct (0 <? _)%nat; [exact (proj1 K)|].
    destruct K as [-> I]. repeat split; [discriminate | exact I].
Qed.

Lemma GetContext_after_Close_witness :
  exists p2 w2,
    GetContext never_starts (fst (Close (set_pool ready_pair []) world0)) world0
    = Returns (Err ErrInit, p2, w2)
    /\ created w2 = 2.
Proof.
  destruct (GetContext_after_Close never_starts (set_pool ready_pair []) world0 world0
              eq_refl eq_refl) as (res & p2 & w2 & G & C & _ & K).
  exists p2, w2.
  change (0 <? List.length (successes never_starts (browser (set_pool ready_pair []))
                              (launched world0) (maxWorkers (set_pool ready_pair []))))%nat
    with false in K.
  destruct K as [-> _]. split; [exact G | exact C].
Defined.
